(** * The purchase indexer of the Storefront example dApp

    A shallow embedding of the server script (the module that defines
    [processPurchases], [indexPastPurchases] and [start]) together with the
    properties of its ledger, its backfill windows and its console output. *)

From Equations Require Import Equations.
From stdpp Require Import gmap strings list fin_maps pretty.
From Stdlib Require Import ZArith Lia Ascii String.

Local Open Scope Z_scope.

(** ** JavaScript numbers produced by [parseInt]

    [parseInt] only ever returns NaN, a signed zero, an infinity or an
    integer-valued double, so the doubles are represented by the integer
    they denote. *)

Inductive number : Type :=
  | NaN
  | Infinity
  | NegInfinity
  | NegZero
  | Int (z : Z).

(** The double nearest to the integer [z] (round to nearest, ties to even,
    53 bits of significand, overflow at 2^1024). *)
Definition toDouble (z : Z) : number :=
  let a := Z.abs z in
  if a <? 2 ^ 53 then Int z
  else
    let e := Z.log2 a - 52 in
    let q := Z.shiftr a e in
    let r := Z.land a (Z.ones e) in
    let half := 2 ^ (e - 1) in
    let q' :=
      if r <? half then q
      else if half <? r then q + 1
      else if Z.even q then q else q + 1 in
    let m := Z.shiftl q' e in
    if 2 ^ 1024 <=? m then (if z <? 0 then NegInfinity else Infinity)
    else Int (Z.sgn z * m).

Definition code (c : ascii) : Z := Z.of_nat (nat_of_ascii c).

(** White space and line terminators of the ASCII range. *)
Definition isWhiteSpace (c : ascii) : bool :=
  let n := code c in ((9 <=? n) && (n <=? 13)) || (n =? 32).

Definition isDigit (c : ascii) : bool := (48 <=? code c) && (code c <=? 57).

(** The value of [c] as a digit of radix [R], if it is one. *)
Definition digitValue (R : Z) (c : ascii) : option Z :=
  let n := code c in
  let v :=
    if (48 <=? n) && (n <=? 57) then Some (n - 48)
    else if (97 <=? n) && (n <=? 122) then Some (n - 87)
    else if (65 <=? n) && (n <=? 90) then Some (n - 55)
    else None in
  match v with
  | Some d => if d <? R then Some d else None
  | None => None
  end.

Fixpoint trimStart (s : string) : string :=
  match s with
  | String c s' => if isWhiteSpace c then trimStart s' else s
  | EmptyString => s
  end.

(** Reads the longest prefix of radix-[R] digits of [s]; [acc] is the value
    of the digits read so far and [seen] tells whether there was one. *)
Fixpoint digits (R : Z) (s : string) (acc : Z) (seen : bool) : option Z :=
  match s with
  | String c s' =>
      match digitValue R c with
      | Some d => digits R s' (acc * R + d) true
      | None => if seen then Some acc else None
      end
  | EmptyString => if seen then Some acc else None
  end.

(** [parseInt(string)] with no radix argument: leading white space, a sign,
    a [0x] prefix that selects radix 16, then the longest run of digits. *)
Definition parseInt (s : string) : number :=
  let trimmed := trimStart s in
  let '(sign, unsigned) :=
    match trimmed with
    | String "-" rest => (-1, rest)
    | String "+" rest => (1, rest)
    | _ => (1, trimmed)
    end in
  let '(R, digitString) :=
    match unsigned with
    | String "0" (String "x" rest) => (16, rest)
    | String "0" (String "X" rest) => (16, rest)
    | _ => (10, unsigned)
    end in
  match digits R digitString 0 false with
  | None => NaN
  | Some mathInt =>
      if mathInt =? 0 then (if sign =? -1 then NegZero else Int 0)
      else toDouble (sign * mathInt)
  end.

(** ** Data model *)

(** What a rejected promise or a [throw] carries. [TypeError] is what reading
    a property of [null] raises. *)
Inductive Error : Type :=
  | TypeError
  | Failure (reason : string).

Inductive result (A : Type) : Type :=
  | Ok (a : A)
  | Throw (e : Error).
Arguments Ok {A} a.
Arguments Throw {A} e.

Record AbiInput : Type := {
  input_name : string;
  input_type : string;
  indexed : bool
}.

Record AbiItem : Type := {
  name : string;
  inputs : list AbiInput
}.

Module Log.
Record t : Type := {
  address : string;
  data : string;
  topics : list string;
  logIndex : Z;
  transactionHash : string;
  blockNumber : Z
}.
End Log.
Abbreviation Log := Log.t.

Module Transaction.
Record t : Type := {
  hash : string;
  from : string;
  value : string
}.
End Transaction.
Abbreviation Transaction := Transaction.t.

(** The two fields [processPurchases] takes out of the decoded log. *)
Module Decoded.
Record t : Type := {
  item : string;
  quantity : string
}.
End Decoded.
Abbreviation Decoded := Decoded.t.

Record PurchaseReceipt : Type := {
  from : string;
  item : string;
  quantity : number;
  total : number;
  transactionId : string
}.

Record Filter : Type := {
  filter_address : string;
  filter_topics : list (option string)
}.

(** The node and library operations the script calls. The chain answers as a
    function of the request: it does not change while the script runs.
    [getTransaction] resolves to [None] ([null]) for a hash the node does not
    know, or rejects. *)
Record Web3 : Type := {
  getBlockNumber : result Z;
  getPastLogs : Filter -> Z -> Z -> result (list Log);
  getTransaction : string -> result (option Transaction);
  decodeLog : list AbiInput -> string -> list string -> result Decoded;
  sha3 : string -> option string
}.

(** The requests sent to the node, oldest first. *)
Inductive Request : Type :=
  | ReqGetBlockNumber
  | ReqSubscribe (topic : string) (filter : Filter)
  | ReqGetPastLogs (filter : Filter) (fromBlock toBlock : Z)
  | ReqGetTransaction (transactionHash : string).

(** The state of the process: the in-memory table, the lines written with
    [console.log] and the requests sent so far. *)
Record State : Type := {
  STOREFRONT_PURCHASES : gmap string PurchaseReceipt;
  console : list string;
  requests : list Request
}.

Definition initial : State :=
  {| STOREFRONT_PURCHASES := ∅; console := []; requests := [] |}.

(** ** Computations that change the state and may throw

    A [throw] leaves the state as it is at that point: nothing is rolled
    back. *)
Definition M (A : Type) : Type := State -> result A * State.

#[global] Instance M_ret : MRet M := fun A a s => (Ok a, s).

#[global] Instance M_bind : MBind M := fun A B f m s =>
  match m s with
  | (Ok a, s') => f a s'
  | (Throw e, s') => (Throw e, s')
  end.

Definition throw {A : Type} (e : Error) : M A := fun s => (Throw e, s).

(** The outcome of a call that does not touch the state. *)
Definition lift {A : Type} (r : result A) : M A := fun s => (r, s).

Definition request (r : Request) : M unit := fun s =>
  (Ok tt, {| STOREFRONT_PURCHASES := STOREFRONT_PURCHASES s;
             console := console s;
             requests := requests s ++ [r] |}).

Definition console_log (line : string) : M unit := fun s =>
  (Ok tt, {| STOREFRONT_PURCHASES := STOREFRONT_PURCHASES s;
             console := console s ++ [line];
             requests := requests s |}).

(** [STOREFRONT_PURCHASES[key] = receipt] *)
Definition store (key : string) (receipt : PurchaseReceipt) : M unit := fun s =>
  (Ok tt, {| STOREFRONT_PURCHASES := <[key := receipt]> (STOREFRONT_PURCHASES s);
             console := console s;
             requests := requests s |}).

Definition quote : string := String "034"%char EmptyString.

(** The block windows asked for, in the order of the requests. *)
Definition windows (reqs : list Request) : list (Z * Z) :=
  omap (fun r => match r with
                 | ReqGetPastLogs _ fromBlock toBlock => Some (fromBlock, toBlock)
                 | _ => None
                 end) reqs.

Definition subscriptions (reqs : list Request) : list (string * Filter) :=
  omap (fun r => match r with
                 | ReqSubscribe topic filter => Some (topic, filter)
                 | _ => None
                 end) reqs.

(** ceil(a / b) for a positive [b]. *)
Definition ceilDiv (a b : Z) : Z := - ((- a) / b).

(** [n] consecutive windows of 500000 blocks, the first one starting at [i]. *)
Fixpoint scheduleFrom (n : nat) (i : Z) : list (Z * Z) :=
  match n with
  | O => []
  | S n' => (i, i + 500000) :: scheduleFrom n' (i + 500000)
  end.

Definition schedule (latestBlock : Z) : list (Z * Z) :=
  scheduleFrom (Z.to_nat (ceilDiv latestBlock 500000)) 0.


(** ** Configuration

    [process.env], and the check both the server script and
    [getStorefrontContract] make of it: a variable that is missing or empty
    is not configured. *)

Definition configured (env : gmap string string) (variable : string) : bool :=
  match env !! variable with
  | Some v => negb (String.eqb v EmptyString)
  | None => false
  end.

(** The two checks at the top of the server script. *)
Definition checkEnvironment (env : gmap string string) : result unit :=
  if negb (configured env "STOREFRONT_ADDRESS") then
    Throw (Failure
      "No STOREFRONT_ADDRESS configured. Please setup a .env file with that variable")
  else if negb (configured env "WEB3_URI") then
    Throw (Failure "No WEB3_URI configured. Please setup a .env file with that variable")
  else Ok tt.

(** ** The contract factory of the library

    [getStorefrontContract]: the same check of [STOREFRONT_ADDRESS], then
    the contract object, whose constructor [newContract] belongs to web3. *)

Section Library.

Variable Contract : Type.
Variable newContract : list AbiItem -> string -> result Contract.

Definition getStorefrontContract (env : gmap string string) (storefrontAbi : list AbiItem)
  : result Contract :=
  match env !! "STOREFRONT_ADDRESS" with
  | Some STOREFRONT_ADDRESS =>
      if String.eqb STOREFRONT_ADDRESS EmptyString then
        Throw (Failure
          "No STOREFRONT_ADDRESS configured. Please setup a .env file with that variable")
      else newContract storefrontAbi STOREFRONT_ADDRESS
  | None =>
      Throw (Failure
        "No STOREFRONT_ADDRESS configured. Please setup a .env file with that variable")
  end.

End Library.

(** ** The browser page *)

#[global] Instance result_ret : MRet result := fun A a => Ok a.

#[global] Instance result_bind : MBind result := fun A B f r =>
  match r with
  | Ok a => f a
  | Throw e => Throw e
  end.

(** ** The top of the server script

    What the script evaluates before it defines its functions: the two
    checks, then the client for [WEB3_URI] and the contract for the ABI and
    [STOREFRONT_ADDRESS]. The two constructors belong to web3 and may
    throw. *)

Section Script.

Variable Contract : Type.
Variable newWeb3 : string -> result Web3.
Variable newContract : Web3 -> list AbiItem -> string -> result Contract.
Variable storefrontAbi : list AbiItem.

Definition setup (env : gmap string string) : result (Web3 * Contract) :=
  checkEnvironment env;;
  web3 ← newWeb3 (default EmptyString (env !! "WEB3_URI"));
  storefront ← newContract web3 storefrontAbi
    (default EmptyString (env !! "STOREFRONT_ADDRESS"));
  mret (web3, storefront).

End Script.

Module StoreItem.
Record t : Type := {
  name : string;
  price : number;
  stock : number
}.
End StoreItem.
Abbreviation StoreItem := StoreItem.t.

(** What the page asks of the wallet's node and of the contract:
    [getPastLogs] from a block on, the [item] field of a decoded log, the
    [prices] and [stock] reads, the wallet's accounts, and sending
    [purchase(name, quantity)] with a sender and a value, which resolves to
    the hash of the transaction. *)
Record Dapp : Type := {
  pastLogsSince : Filter -> Z -> result (list Log);
  decodeItem : list AbiInput -> string -> list string -> result string;
  prices : string -> result string;
  stock : string -> result string;
  getAccounts : result (list string);
  purchase_send : string -> Z -> option string -> number -> result string;
  dapp_sha3 : string -> option string
}.

(** The note the page shows after a purchase: the link to the transaction,
    or the reason of the failure. *)
Inductive Note : Type :=
  | NoteSuccess (transactionHash : string)
  | NoteFailed (e : Error).

(** The three pieces of state of the [Storefront] component. *)
Record StorefrontState : Type := {
  storeItems : list StoreItem;
  isPurchasing : bool;
  purchaseNote : option Note
}.

Definition setStoreItems (items : list StoreItem) (st : StorefrontState) : StorefrontState :=
  {| storeItems := items; isPurchasing := isPurchasing st;
     purchaseNote := purchaseNote st |}.

Definition setIsPurchasing (flag : bool) (st : StorefrontState) : StorefrontState :=
  {| storeItems := storeItems st; isPurchasing := flag;
     purchaseNote := purchaseNote st |}.

Definition setPurchaseNote (note : Note) (st : StorefrontState) : StorefrontState :=
  {| storeItems := storeItems st; isPurchasing := isPurchasing st;
     purchaseNote := Some note |}.

Inductive Action : Type :=
  | OutOfStock
  | BuyNow.

(** A row of the table: the item it shows, its background colour, and what
    its last cell offers. *)
Record Row : Type := {
  row_item : StoreItem;
  backgroundColor : string;
  action : Action
}.

(** What [Storefront] returns. *)
Inductive View : Type :=
  | ViewNote (note : Note)
  | ViewInProgress
  | ViewTable (rows : list Row).

(** [n <= 0] on the numbers [parseInt] returns. *)
Definition leZero (n : number) : bool :=
  match n with
  | NaN => false
  | Infinity => false
  | NegInfinity => true
  | NegZero => true
  | Int z => z <=? 0
  end.

Section Browser.

Variable dapp : Dapp.
Variable storefrontAbi : list AbiItem.
(** [storefront.options.address] *)
Variable storefront_address : string.

Definition ITEM_UPDATED_ABI_INPUT : list AbiInput :=
  match List.find (fun item => String.eqb (name item) "ItemUpdated") storefrontAbi with
  | Some item => inputs item
  | None => []
  end.

(** The loop of [getItems], entered with the items pushed so far. *)
Fixpoint getItems_loop (updateItemLogs : list Log) (items : list StoreItem)
  : result (list StoreItem) :=
  match updateItemLogs with
  | [] => mret items
  | log :: rest =>
      name ← decodeItem dapp ITEM_UPDATED_ABI_INPUT (Log.data log) (Log.topics log);
      price ← prices dapp name;
      stock ← stock dapp name;
      let item :=
        {| StoreItem.name := name;
           StoreItem.price := parseInt price;
           StoreItem.stock := parseInt stock |} in
      getItems_loop rest (items ++ [item])
  end.

Definition getItems : result (list StoreItem) :=
  updateItemLogs ← pastLogsSince dapp
    {| filter_address := storefront_address;
       filter_topics := [dapp_sha3 dapp "ItemUpdated(string,uint256,uint256)"] |} 0;
  getItems_loop updateItemLogs [].

Definition Storefront_initial : StorefrontState :=
  {| storeItems := []; isPurchasing := false; purchaseNote := None |}.

(** The effect of mounting: [getItems().then(setStoreItems)]. Nothing is
    set when [getItems] rejects. *)
Definition loadItems (st : StorefrontState) : StorefrontState :=
  match getItems with
  | Ok items => setStoreItems items st
  | Throw _ => st
  end.

(** The handler [purchase], run to its end: the flag is set, then the
    transaction is sent from the first account of the wallet with the
    item's price as its value, and the note says how that went. The flag is
    not set back. *)
Definition purchase (storeItem : StoreItem) (st : StorefrontState) : StorefrontState :=
  let st := setIsPurchasing true st in
  let sent :=
    accounts ← getAccounts dapp;
    purchase_send dapp (StoreItem.name storeItem) 1 (head accounts)
      (StoreItem.price storeItem) in
  match sent with
  | Ok transactionHash => setPurchaseNote (NoteSuccess transactionHash) st
  | Throw e => setPurchaseNote (NoteFailed e) st
  end.

Definition renderRow (i : nat) (storeItem : StoreItem) : Row :=
  {| row_item := storeItem;
     backgroundColor := if negb (i mod 2 =? 0)%nat then EmptyString else "#f2f2f2";
     action := if leZero (StoreItem.stock storeItem) then OutOfStock else BuyNow |}.

(** The body of the [Storefront] component. *)
Definition Storefront (st : StorefrontState) : View :=
  if isPurchasing st then
    match purchaseNote st with
    | Some note => ViewNote note
    | None => ViewInProgress
    end
  else ViewTable (imap renderRow (storeItems st)).

(** *** Notions used to state the properties *)

(** The item the loop assembles for one log. *)
Definition itemOf (log : Log) : result StoreItem :=
  name ← decodeItem dapp ITEM_UPDATED_ABI_INPUT (Log.data log) (Log.topics log);
  price ← prices dapp name;
  stock ← stock dapp name;
  mret {| StoreItem.name := name;
          StoreItem.price := parseInt price;
          StoreItem.stock := parseInt stock |}.

(** What happens to the component: the items arrive, a purchase starts
    (the flag is set and the answer is awaited), or a purchase runs to its
    end. *)
Inductive StorefrontEvent : Type :=
  | ItemsLoaded
  | PurchaseStarted
  | PurchaseDone (storeItem : StoreItem).

Definition Storefront_step (st : StorefrontState) (ev : StorefrontEvent) : StorefrontState :=
  match ev with
  | ItemsLoaded => loadItems st
  | PurchaseStarted => setIsPurchasing true st
  | PurchaseDone storeItem => purchase storeItem st
  end.

End Browser.

(** ** Sample nodes *)

Module Sample.

Definition purchased : Decoded :=
  {| Decoded.item := "sneakers"; Decoded.quantity := "2" |}.

Definition logOf (h : string) (block : Z) : Log :=
  {| Log.address := "0xStorefront"; Log.data := "0xdata"; Log.topics := ["0xtopic"];
     Log.logIndex := 0; Log.transactionHash := h; Log.blockNumber := block |}.

Definition malformed (h : string) (block : Z) : Log :=
  {| Log.address := "0xStorefront"; Log.data := "0xdata"; Log.topics := [];
     Log.logIndex := 0; Log.transactionHash := h; Log.blockNumber := block |}.

Definition txA : Transaction :=
  {| Transaction.hash := "0xa1"; Transaction.from := "0xA"; Transaction.value := "300" |}.

Definition txB : Transaction :=
  {| Transaction.hash := "0xb2"; Transaction.from := "0xB";
     Transaction.value := "9007199254740993" |}.

(** A node that knows the transactions [0xa1] (value 300) and [0xb2]
    (value 2^53 + 1), does not know [0xdead], and has a log of [0xdead] and
    of [0xa1] in the first window and a log of [0xb2] in the second. A log
    with no topic is refused by the decoder. *)
Definition node : Web3 :=
  {| getBlockNumber := Ok 1200000;
     getPastLogs := fun _ fromBlock _ =>
       if fromBlock =? 0 then Ok [logOf "0xdead" 7; logOf "0xa1" 8]
       else if fromBlock =? 500000 then Ok [logOf "0xb2" 500001]
       else Ok [];
     getTransaction := fun h =>
       if String.eqb h "0xa1" then Ok (Some txA)
       else if String.eqb h "0xb2" then Ok (Some txB)
       else Ok None;
     decodeLog := fun _ _ topics =>
       match topics with
       | [] => Throw (Failure "cannot decode")
       | _ => Ok purchased
       end;
     sha3 := fun _ => Some "0xtopic" |}.

(** The same chain with every transaction known and no log of [0xdead]. *)
Definition healthy : Web3 :=
  {| getBlockNumber := Ok 1200000;
     getPastLogs := fun _ fromBlock _ =>
       if fromBlock =? 0 then Ok [logOf "0xa1" 8]
       else if fromBlock =? 500000 then Ok [logOf "0xb2" 500001]
       else Ok [];
     getTransaction := getTransaction node;
     decodeLog := decodeLog node;
     sha3 := sha3 node |}.

Definition abi : list AbiItem :=
  [ {| name := "ItemUpdated";
       inputs := [ {| input_name := "item"; input_type := "string"; indexed := false |};
                   {| input_name := "price"; input_type := "uint256"; indexed := false |};
                   {| input_name := "stock"; input_type := "uint256"; indexed := false |} ] |};
    {| name := "ItemPurchased";
       inputs := [ {| input_name := "item"; input_type := "string"; indexed := false |};
                   {| input_name := "quantity"; input_type := "uint256"; indexed := false |} ] |} ].

Definition storefront : string := "0xStorefront".

(** The node [healthy] with the request for the second window rejected. *)
Definition flaky : Web3 :=
  {| getBlockNumber := Ok 1200000;
     getPastLogs := fun filter fromBlock toBlock =>
       if fromBlock =? 500000 then Throw (Failure "query timeout")
       else getPastLogs healthy filter fromBlock toBlock;
     getTransaction := getTransaction node;
     decodeLog := decodeLog node;
     sha3 := sha3 node |}.

(** An [ItemUpdated] log of the item [item]; the sample decoder reads the
    name off the data. *)
Definition updated (item : string) (block : Z) : Log :=
  {| Log.address := "0xStorefront"; Log.data := item; Log.topics := ["0xupdated"];
     Log.logIndex := 0; Log.transactionHash := "0xc3"; Log.blockNumber := block |}.

(** A shop with sneakers (150 wei, 5 in stock) and boots (80 wei, none in
    stock), the sneakers updated twice. Nothing else is known to the
    contract reads. *)
Definition shop : Dapp :=
  {| pastLogsSince := fun _ _ =>
       Ok [updated "sneakers" 3; updated "boots" 4; updated "sneakers" 9];
     decodeItem := fun _ data topics =>
       match topics with
       | [] => Throw (Failure "cannot decode")
       | _ => Ok data
       end;
     prices := fun item =>
       if String.eqb item "sneakers" then Ok "150"
       else if String.eqb item "boots" then Ok "80"
       else Throw (Failure "execution reverted");
     stock := fun item =>
       if String.eqb item "sneakers" then Ok "5"
       else if String.eqb item "boots" then Ok "0"
       else Throw (Failure "execution reverted");
     getAccounts := Ok ["0xA"];
     purchase_send := fun item _ _ _ =>
       if String.eqb item "sneakers" then Ok "0xa1"
       else Throw (Failure "This item is not in stock");
     dapp_sha3 := fun _ => Some "0xupdated" |}.

(** The same shop with a log of an item whose reads are rejected. *)
Definition brokenShop : Dapp :=
  {| pastLogsSince := fun _ _ =>
       Ok ([updated "sneakers" 3] ++ updated "ghost" 4 :: [updated "boots" 5]);
     decodeItem := decodeItem shop;
     prices := prices shop;
     stock := stock shop;
     getAccounts := getAccounts shop;
     purchase_send := purchase_send shop;
     dapp_sha3 := dapp_sha3 shop |}.

(** The node [healthy] with a decoder that, as the library does for an
    event with no indexed input, reads the fields off the data and does not
    look at the topics. *)
Definition library : Web3 :=
  {| getBlockNumber := Ok 1200000;
     getPastLogs := getPastLogs healthy;
     getTransaction := getTransaction node;
     decodeLog := fun _ data _ =>
       if String.eqb data "0xdata" then Ok purchased
       else Throw (Failure "cannot decode");
     sha3 := sha3 node |}.

(** A log whose first topic is that of another event and whose data reads
    as a purchase, and a log of the right topic whose data does not. *)
Definition foreign (h : string) (block : Z) : Log :=
  {| Log.address := "0xStorefront"; Log.data := "0xdata"; Log.topics := ["0xItemUpdated"];
     Log.logIndex := 0; Log.transactionHash := h; Log.blockNumber := block |}.

Definition garbled (h : string) (block : Z) : Log :=
  {| Log.address := "0xStorefront"; Log.data := "0x"; Log.topics := ["0xtopic"];
     Log.logIndex := 0; Log.transactionHash := h; Log.blockNumber := block |}.

End Sample.

Section Server.

Variable web3 : Web3.
Variable storefrontAbi : list AbiItem.
(** [storefront.options.address] *)
Variable storefront_address : string.

Definition ITEM_PURCHASED_ABI_INPUT : list AbiInput :=
  match List.find (fun item => String.eqb (name item) "ItemPurchased") storefrontAbi with
  | Some item => inputs item
  | None => []
  end.

Definition PURCHASE_FILTER : Filter :=
  {| filter_address := storefront_address;
     filter_topics := [sha3 web3 "ItemPurchased(string,uint256)"] |}.

Definition eth_getBlockNumber : M Z :=
  request ReqGetBlockNumber;; lift (getBlockNumber web3).

Definition eth_getPastLogs (filter : Filter) (fromBlock toBlock : Z) : M (list Log) :=
  request (ReqGetPastLogs filter fromBlock toBlock);;
  lift (getPastLogs web3 filter fromBlock toBlock).

Definition eth_getTransaction (transactionHash : string) : M (option Transaction) :=
  request (ReqGetTransaction transactionHash);;
  lift (getTransaction web3 transactionHash).

Definition eth_subscribe (topic : string) (filter : Filter) : M unit :=
  request (ReqSubscribe topic filter).

(** Reading a property of the looked-up transaction: [null] has none. *)
Definition deref (tx : option Transaction) : M Transaction :=
  match tx with
  | Some t => mret t
  | None => throw TypeError
  end.

Definition purchaseLine (decoded : Decoded) (tx : Transaction) : string :=
  "[" +:+ Transaction.hash tx +:+ "] " +:+ Decoded.quantity decoded +:+ " of " +:+ quote
    +:+ Decoded.item decoded +:+ quote +:+ " were purchased by " +:+ Transaction.from tx
    +:+ " for " +:+ Transaction.value tx +:+ " wei".

Definition makeReceipt (decoded : Decoded) (tx : Transaction) : PurchaseReceipt :=
  {| from := Transaction.from tx;
     item := Decoded.item decoded;
     quantity := parseInt (Decoded.quantity decoded);
     total := parseInt (Transaction.value tx);
     transactionId := Transaction.hash tx |}.

(** The body of the loop of [processPurchases]. *)
Definition processPurchase (log : Log) : M unit :=
  decoded ← lift (decodeLog web3 ITEM_PURCHASED_ABI_INPUT (Log.data log) (Log.topics log));
  tx ← eth_getTransaction (Log.transactionHash log);
  tx ← deref tx;
  let receipt := makeReceipt decoded tx in
  store (Transaction.hash tx) receipt;;
  console_log (purchaseLine decoded tx).

Fixpoint processPurchases (purchaseLogs : list Log) : M unit :=
  match purchaseLogs with
  | [] => mret tt
  | log :: rest => processPurchase log;; processPurchases rest
  end.

(** The loop of [indexPastPurchases], entered with the counter at [i]. Block
    numbers and the counter are JavaScript numbers that hold integers; they
    are integers here. The loop ends because [latestBlock - i] decreases. *)
Equations? indexPastPurchases_loop (latestBlock i : Z) : M unit
  by wf (Z.to_nat (latestBlock - i)) lt :=
indexPastPurchases_loop latestBlock i with decide (i < latestBlock) := {
  | left _ =>
      let fromBlock := i in
      let toBlock := fromBlock + 500000 in
      purchaseLogs ← eth_getPastLogs PURCHASE_FILTER fromBlock toBlock;
      processPurchases purchaseLogs;;
      indexPastPurchases_loop latestBlock (i + 500000)
  | right _ => mret tt }.
Proof. lia. Qed.

Definition indexPastPurchases (latestBlock : Z) : M unit :=
  indexPastPurchases_loop latestBlock 0.

(** The callback given to [web3.eth.subscribe]. The promise of
    [processPurchases] is not awaited: what it throws does not reach the
    caller of the callback. *)
Definition onLogs (err : option Error) (newPurchase : Log) : M unit :=
  match err with
  | Some e => throw e
  | None => fun s => (Ok tt, (processPurchases [newPurchase] s).2)
  end.

Definition start : M unit :=
  currentBlockNumber ← eth_getBlockNumber;
  console_log ("Connected to web3 🚀 Current block is " +:+ pretty currentBlockNumber);;
  eth_subscribe "logs" PURCHASE_FILTER;;
  indexPastPurchases currentBlockNumber.

(** ** Notions used to state the properties *)

(** What the two lookups of one loop iteration give for [log]: the decoded
    fields and the transaction, or what is thrown. *)
Definition resolve (log : Log) : result (Decoded * Transaction) :=
  match decodeLog web3 ITEM_PURCHASED_ABI_INPUT (Log.data log) (Log.topics log) with
  | Throw e => Throw e
  | Ok decoded =>
      match getTransaction web3 (Log.transactionHash log) with
      | Throw e => Throw e
      | Ok None => Throw TypeError
      | Ok (Some tx) => Ok (decoded, tx)
      end
  end.

(** The logs of a batch that are processed: those before the first one whose
    lookups throw, each with what was looked up for it. *)
Fixpoint processed (purchaseLogs : list Log) : list (Decoded * Transaction) :=
  match purchaseLogs with
  | [] => []
  | log :: rest =>
      match resolve log with
      | Ok dt => dt :: processed rest
      | Throw _ => []
      end
  end.

(** What a batch returns: the first error, if there is one. *)
Fixpoint outcome (purchaseLogs : list Log) : result unit :=
  match purchaseLogs with
  | [] => Ok tt
  | log :: rest =>
      match resolve log with
      | Ok _ => outcome rest
      | Throw e => Throw e
      end
  end.

(** The transaction lookups a batch sends: one per log, up to and including
    the first log that fails, unless that one fails in the decoder. *)
Fixpoint lookups (purchaseLogs : list Log) : list Request :=
  match purchaseLogs with
  | [] => []
  | log :: rest =>
      match decodeLog web3 ITEM_PURCHASED_ABI_INPUT (Log.data log) (Log.topics log) with
      | Throw _ => []
      | Ok _ =>
          ReqGetTransaction (Log.transactionHash log) ::
          match resolve log with
          | Ok _ => lookups rest
          | Throw _ => []
          end
      end
  end.

Definition upsert (ledger : gmap string PurchaseReceipt) (dt : Decoded * Transaction)
  : gmap string PurchaseReceipt :=
  <[Transaction.hash dt.2 := makeReceipt dt.1 dt.2]> ledger.

(** A log whose lookups succeed and whose transaction carries the hash that
    was asked for. *)
Definition genuine (log : Log) : Prop :=
  exists decoded tx, resolve log = Ok (decoded, tx)
    /\ Transaction.hash tx = Log.transactionHash log.

Definition receiptOf (log : Log) : option PurchaseReceipt :=
  match resolve log with
  | Ok (decoded, tx) => Some (makeReceipt decoded tx)
  | Throw _ => None
  end.

(** Batches handed to [processPurchases] one call after the other, each call
    on its own: what one call throws does not stop the next. *)
Definition deliver (batches : list (list Log)) (s : State) : State :=
  foldl (fun s batch => (processPurchases batch s).2) s batches.

(** The entry points of the script. *)
Inductive Operation : Type :=
  | OpProcessPurchases (purchaseLogs : list Log)
  | OpIndexPastPurchases (latestBlock : Z)
  | OpOnLogs (err : option Error) (newPurchase : Log)
  | OpStart.

Definition run (op : Operation) : M unit :=
  match op with
  | OpProcessPurchases purchaseLogs => processPurchases purchaseLogs
  | OpIndexPastPurchases latestBlock => indexPastPurchases latestBlock
  | OpOnLogs err newPurchase => onLogs err newPurchase
  | OpStart => start
  end.

(** The invariant of the table: an entry is stored under the hash of the
    transaction it was assembled from, and that transaction was looked up. *)
Definition ledgerInvariant (s : State) : Prop :=
  forall k r, STOREFRONT_PURCHASES s !! k = Some r ->
    transactionId r = k /\
    exists log decoded tx,
      resolve log = Ok (decoded, tx) /\
      ReqGetTransaction (Log.transactionHash log) ∈ requests s /\
      Transaction.hash tx = k /\
      r = makeReceipt decoded tx.

(** The transaction lookup for [log] fails with [e]: the request is rejected
    with [e], or it resolves to [null] and reading the sender throws. *)
Definition lookupFails (log : Log) (e : Error) : Prop :=
  getTransaction web3 (Log.transactionHash log) = Throw e \/
  (getTransaction web3 (Log.transactionHash log) = Ok None /\ e = TypeError).

(** Every window the node is asked for answers with logs that all process. *)
Definition answersAll : Prop :=
  forall fromBlock toBlock, exists purchaseLogs,
    getPastLogs web3 PURCHASE_FILTER fromBlock toBlock = Ok purchaseLogs /\
    outcome purchaseLogs = Ok tt.

(** [m] keeps the property [P] of the state, whether it returns or throws. *)
Definition preserves {A : Type} (P : State -> Prop) (m : M A) : Prop :=
  forall s, P s -> P (m s).2.

(** The logs the node returns for a window, and for all the windows of a
    backfill in turn. *)
Definition windowLogs (w : Z * Z) : list Log :=
  match getPastLogs web3 PURCHASE_FILTER w.1 w.2 with
  | Ok purchaseLogs => purchaseLogs
  | Throw _ => []
  end.

Definition backfillLogs (latestBlock : Z) : list Log :=
  List.concat (windowLogs <$> schedule latestBlock).

(** [m] does not read the state: what it returns, stores, writes and asks
    is the same from every state. *)
Definition blind {A : Type} (m : M A) : Prop :=
  exists (r : result A) (stored : list (string * PurchaseReceipt))
         (lines : list string) (asked : list Request),
    forall s, m s =
      (r, {| STOREFRONT_PURCHASES :=
               foldl (fun L kr => <[kr.1 := kr.2]> L) (STOREFRONT_PURCHASES s) stored;
             console := console s ++ lines;
             requests := requests s ++ asked |}).

(** Every receipt of the table has its line on the console. *)
Definition announced (s : State) : Prop :=
  forall k r, STOREFRONT_PURCHASES s !! k = Some r ->
    exists decoded tx,
      r = makeReceipt decoded tx /\ Transaction.hash tx = k /\
      purchaseLine decoded tx ∈ console s.

(** ** [parseInt] on the decimal notation of an unsigned integer *)

Example parseInt_300 : parseInt "300" = Int 300.
Proof. reflexivity. Qed.

Example parseInt_2_53_1 : parseInt "9007199254740993" = Int 9007199254740992.
Proof. vm_compute. reflexivity. Qed.

Example parseInt_2_53_3 : parseInt "9007199254740995" = Int 9007199254740996.
Proof. vm_compute. reflexivity. Qed.

Example parseInt_hex : parseInt "  -0x1fZ" = Int (-31).
Proof. reflexivity. Qed.

Example parseInt_wei : parseInt "1000000000000000001" = Int 1000000000000000000.
Proof. vm_compute. reflexivity. Qed.


Lemma pretty_N_char_value (d : N) :
  (d < 10)%N ->
  isDigit (pretty_N_char d) = true /\ digitValue 10 (pretty_N_char d) = Some (Z.of_N d).
Proof.
  intros Hd.
  assert (d = 0 \/ d = 1 \/ d = 2 \/ d = 3 \/ d = 4 \/ d = 5 \/ d = 6 \/ d = 7
          \/ d = 8 \/ d = 9)%N as Hcases by lia.
  repeat (destruct Hcases as [->|Hcases]; [split; reflexivity|]).
  subst d. split; reflexivity.
Qed.

(** Reading back the digits that [pretty_N_go] puts in front of [s]. *)
Lemma digits_pretty_N_go (x : N) :
  exists k : Z, 0 <= k /\
    forall (s : string) (acc : Z) (seen : bool),
      digits 10 (pretty_N_go x s) acc seen
      = digits 10 s (acc * 10 ^ k + Z.of_N x) (seen || (0 <? Z.of_N x)).
Proof.
  induction (N.lt_wf_0 x) as [x _ IH].
  destruct (decide (x = 0)%N) as [->|Hx].
  - exists 0. split; [lia|]. intros s acc seen.
    rewrite pretty_N_go_0, orb_false_r. f_equal. lia.
  - destruct (IH (x `div` 10)%N) as (k & Hk & IHk).
    { apply N.div_lt; lia. }
    exists (k + 1). split; [lia|]. intros s acc seen.
    rewrite pretty_N_go_step by lia. rewrite IHk. simpl.
    destruct (pretty_N_char_value (x `mod` 10)%N) as [_ ->].
    { apply N.mod_lt. lia. }
    replace (0 <? Z.of_N x) with true by (symmetry; apply Z.ltb_lt; lia).
    rewrite orb_true_r. f_equal.
    rewrite Z.pow_add_r by lia.
    rewrite (N.div_mod x 10) at 3 by lia.
    rewrite N2Z.inj_add, N2Z.inj_mul. simpl Z.of_N. lia.
Qed.

(** The shape of the notation of a positive integer: a digit, then nothing
    more, or another digit. *)
Lemma pretty_N_go_shape (x : N) (s : string) :
  (0 < x)%N ->
  exists c rest, pretty_N_go x s = String c rest /\ isDigit c = true /\
    (rest = s \/ exists c' rest', rest = String c' rest' /\ isDigit c' = true).
Proof.
  revert s. induction (N.lt_wf_0 x) as [x _ IH]. intros s Hx.
  rewrite pretty_N_go_step by exact Hx.
  destruct (pretty_N_char_value (x `mod` 10)%N) as [Hdigit _].
  { apply N.mod_lt. lia. }
  destruct (decide (x `div` 10 = 0)%N) as [->|Hq].
  - rewrite pretty_N_go_0. exists (pretty_N_char (x `mod` 10)), s.
    split; [reflexivity|]. split; [exact Hdigit|left; reflexivity].
  - destruct (IH (x `div` 10)%N) with (s := String (pretty_N_char (x `mod` 10)) s)
      as (c & rest & -> & Hc & Hrest).
    { apply N.div_lt; lia. }
    { apply N.neq_0_lt_0, Hq. }
    exists c, rest. split; [reflexivity|]. split; [exact Hc|].
    right. destruct Hrest as [->|Hrest]; [|exact Hrest].
    exists (pretty_N_char (x `mod` 10)), s. split; [reflexivity|exact Hdigit].
Qed.

Lemma isDigit_cases (c : ascii) :
  isDigit c = true ->
  c ∈ ["0"; "1"; "2"; "3"; "4"; "5"; "6"; "7"; "8"; "9"]%char.
Proof.
  destruct c as [[] [] [] [] [] [] [] []]; vm_compute; intros H;
    try discriminate H; set_solver.
Qed.


Lemma parseInt_digits (c : ascii) (rest : string) :
  isDigit c = true ->
  (rest = EmptyString \/ exists c' rest', rest = String c' rest' /\ isDigit c' = true) ->
  parseInt (String c rest) =
  match digits 10 (String c rest) 0 false with
  | None => NaN
  | Some mathInt => if mathInt =? 0 then Int 0 else toDouble mathInt
  end.
Proof.
  intros Hc Hrest.
  assert (Hmul : forall o : option Z,
    match o with
    | None => NaN
    | Some mathInt => if mathInt =? 0 then Int 0 else toDouble (1 * mathInt)
    end =
    match o with
    | None => NaN
    | Some mathInt => if mathInt =? 0 then Int 0 else toDouble mathInt
    end).
  { intros [m|]; [|reflexivity]. rewrite Z.mul_1_l. reflexivity. }
  apply isDigit_cases in Hc.
  destruct Hrest as [->|(c' & rest' & -> & Hc')].
  - repeat (apply elem_of_cons in Hc as [->|Hc]; [reflexivity|]). inversion Hc.
  - apply isDigit_cases in Hc'.
    repeat (apply elem_of_cons in Hc as [->|Hc];
      [repeat (apply elem_of_cons in Hc' as [->|Hc']; [apply Hmul|]); inversion Hc'|]).
    inversion Hc.
Qed.

(** [parseInt] gives the double nearest to the integer written in decimal. *)
Lemma parseInt_pretty (v : N) : parseInt (pretty v) = toDouble (Z.of_N v).
Proof.
  unfold pretty, pretty_N. destruct (decide (v = 0)%N) as [->|Hv]; [reflexivity|].
  destruct (pretty_N_go_shape v EmptyString) as (c & rest & Heq & Hc & Hrest); [lia|].
  destruct (digits_pretty_N_go v) as (k & _ & Hdigits).
  specialize (Hdigits EmptyString 0 false).
  rewrite Heq in *. rewrite parseInt_digits, Hdigits by assumption.
  replace (0 * 10 ^ k + Z.of_N v) with (Z.of_N v) by lia.
  replace (0 <? Z.of_N v) with true by (symmetry; apply Z.ltb_lt; lia).
  simpl.
  replace (Z.of_N v =? 0) with false by (symmetry; apply Z.eqb_neq; lia).
  reflexivity.
Qed.

Lemma toDouble_safe (z : Z) : Z.abs z <= 2 ^ 53 -> toDouble z = Int z.
Proof.
  intros Hz. unfold toDouble.
  destruct (Z.ltb_spec (Z.abs z) (2 ^ 53)) as [_|Hge]; [reflexivity|].
  assert (Z.abs z = 2 ^ 53) as Habs by lia. rewrite Habs.
  destruct (Z.abs_eq_or_opp z) as [Hz'|Hz']; rewrite Hz' in Habs.
  - subst z. vm_compute. reflexivity.
  - assert (z = - 2 ^ 53) as -> by lia. vm_compute. reflexivity.
Qed.

(** ** What one call of [processPurchases] does *)

Local Abbreviation ledger := STOREFRONT_PURCHASES.

Lemma processPurchase_unfold (log : Log) (s : State) :
  processPurchase log s =
  match decodeLog web3 ITEM_PURCHASED_ABI_INPUT (Log.data log) (Log.topics log) with
  | Throw e => (Throw e, s)
  | Ok decoded =>
      let asked :=
        {| STOREFRONT_PURCHASES := ledger s; console := console s;
           requests := requests s ++ [ReqGetTransaction (Log.transactionHash log)] |} in
      match getTransaction web3 (Log.transactionHash log) with
      | Throw e => (Throw e, asked)
      | Ok None => (Throw TypeError, asked)
      | Ok (Some tx) =>
          (Ok tt,
           {| STOREFRONT_PURCHASES := <[Transaction.hash tx := makeReceipt decoded tx]> (ledger s);
              console := console s ++ [purchaseLine decoded tx];
              requests := requests s ++ [ReqGetTransaction (Log.transactionHash log)] |})
      end
  end.
Proof.
  unfold processPurchase, mbind, M_bind, lift, eth_getTransaction, request; simpl.
  destruct (decodeLog _ _ _ _) as [decoded|e]; [|reflexivity].
  unfold mbind, M_bind; simpl.
  destruct (getTransaction web3 (Log.transactionHash log)) as [[tx|]|e]; reflexivity.
Qed.

Lemma processPurchases_cons (log : Log) (rest : list Log) (s : State) :
  processPurchases (log :: rest) s =
  match processPurchase log s with
  | (Ok _, s') => processPurchases rest s'
  | (Throw e, s') => (Throw e, s')
  end.
Proof. reflexivity. Qed.

(** The whole effect of a batch, in closed form. *)
Lemma processPurchases_spec (purchaseLogs : list Log) (s : State) :
  processPurchases purchaseLogs s =
  (outcome purchaseLogs,
   {| STOREFRONT_PURCHASES := foldl upsert (ledger s) (processed purchaseLogs);
      console := console s ++ (uncurry purchaseLine <$> processed purchaseLogs);
      requests := requests s ++ lookups purchaseLogs |}).
Proof.
  revert s. induction purchaseLogs as [|log rest IH]; intros s.
  - destruct s; simpl. rewrite !app_nil_r. reflexivity.
  - rewrite processPurchases_cons, processPurchase_unfold. simpl.
    unfold resolve.
    destruct (decodeLog _ _ _ _) as [decoded|e].
    + destruct (getTransaction web3 (Log.transactionHash log)) as [[tx|]|e]; simpl.
      * rewrite IH. simpl. rewrite <- !app_assoc. reflexivity.
      * rewrite app_nil_r. reflexivity.
      * rewrite app_nil_r. reflexivity.
    + destruct s; simpl. rewrite !app_nil_r. reflexivity.
Qed.

Lemma processPurchases_app (pre rest : list Log) (s s1 : State) :
  processPurchases pre s = (Ok tt, s1) ->
  processPurchases (pre ++ rest) s = processPurchases rest s1.
Proof.
  revert s. induction pre as [|log pre IH]; intros s Hpre.
  - inversion Hpre. reflexivity.
  - rewrite <- app_comm_cons, processPurchases_cons.
    rewrite processPurchases_cons in Hpre.
    destruct (processPurchase log s) as [[[]|e] s']; [|discriminate].
    apply IH, Hpre.
Qed.

Lemma indexPastPurchases_loop_body (latestBlock i : Z) (s : State) :
  indexPastPurchases_loop latestBlock i s =
  if decide (i < latestBlock) then
    (purchaseLogs ← eth_getPastLogs PURCHASE_FILTER i (i + 500000);
     processPurchases purchaseLogs;;
     indexPastPurchases_loop latestBlock (i + 500000)) s
  else (Ok tt, s).
Proof.
  etransitivity;
    [apply (f_equal (fun m => m s)); apply indexPastPurchases_loop_equation_1|].
  destruct (decide (i < latestBlock)); reflexivity.
Qed.

(** One turn of the loop, spelled out. *)
Lemma indexPastPurchases_loop_step (latestBlock i : Z) (s : State) :
  i < latestBlock ->
  indexPastPurchases_loop latestBlock i s =
  let asked :=
    {| STOREFRONT_PURCHASES := ledger s; console := console s;
       requests := requests s ++ [ReqGetPastLogs PURCHASE_FILTER i (i + 500000)] |} in
  match getPastLogs web3 PURCHASE_FILTER i (i + 500000) with
  | Throw e => (Throw e, asked)
  | Ok purchaseLogs =>
      match processPurchases purchaseLogs asked with
      | (Ok _, s') => indexPastPurchases_loop latestBlock (i + 500000) s'
      | (Throw e, s') => (Throw e, s')
      end
  end.
Proof.
  intros Hlt. rewrite indexPastPurchases_loop_body.
  destruct (decide (i < latestBlock)) as [_|Hge]; [|contradiction].
  unfold mbind, M_bind, eth_getPastLogs, request, lift; simpl.
  destruct (getPastLogs web3 PURCHASE_FILTER i (i + 500000)) as [purchaseLogs|e];
    reflexivity.
Qed.

Lemma indexPastPurchases_loop_done (latestBlock i : Z) (s : State) :
  latestBlock <= i -> indexPastPurchases_loop latestBlock i s = (Ok tt, s).
Proof.
  intros Hge. rewrite indexPastPurchases_loop_body.
  destruct (decide (i < latestBlock)); [lia|reflexivity].
Qed.

Lemma onLogs_log (newPurchase : Log) (s : State) :
  onLogs None newPurchase s = (Ok tt, (processPurchase newPurchase s).2).
Proof.
  unfold onLogs. rewrite processPurchases_cons.
  destruct (processPurchase newPurchase s) as [[[]|e] s']; reflexivity.
Qed.

(** ** Failures *)

(** C5, as the code has it. When the decoder throws on a log, that error is
    what [processPurchases] throws: the log is not skipped, and the state is
    the one the logs before it left, so no receipt is stored for it, no line
    is written and no transaction is looked up. The decoder's answer is the
    only test: the topics of a log are not compared with the signature of
    the event, and a log that the decoder accepts and whose transaction is
    found is stored whatever its topics are. *)
Theorem decode_failure_propagated
    (pre rest : list Log) (log : Log) (e : Error) (s s1 : State) :
  decodeLog web3 ITEM_PURCHASED_ABI_INPUT (Log.data log) (Log.topics log) = Throw e ->
  processPurchases pre s = (Ok tt, s1) ->
  processPurchase log s1 = (Throw e, s1) /\
  processPurchases (pre ++ log :: rest) s = (Throw e, s1) /\
  (forall (other : Log) (decoded : Decoded) (tx : Transaction) (s0 : State),
     decodeLog web3 ITEM_PURCHASED_ABI_INPUT (Log.data other) (Log.topics other)
       = Ok decoded ->
     getTransaction web3 (Log.transactionHash other) = Ok (Some tx) ->
     processPurchase other s0 =
       (Ok tt,
        {| STOREFRONT_PURCHASES :=
             <[Transaction.hash tx := makeReceipt decoded tx]> (ledger s0);
           console := console s0 ++ [purchaseLine decoded tx];
           requests := requests s0 ++ [ReqGetTransaction (Log.transactionHash other)] |})).
Proof.
  intros Hdecode Hpre.
  assert (Hone : processPurchase log s1 = (Throw e, s1)).
  { rewrite processPurchase_unfold, Hdecode. reflexivity. }
  split; [exact Hone|]. split.
  - rewrite (processPurchases_app _ _ _ _ Hpre), processPurchases_cons, Hone.
    reflexivity.
  - intros other decoded tx s0 Hother Htx.
    rewrite processPurchase_unfold, Hother, Htx. reflexivity.
Qed.

(** C3, as the code has it. When the transaction lookup of a log fails, the
    error is thrown by [processPurchases] and nothing is stored or written
    for that log; only the request is recorded. The rest of the batch is not
    processed, and in the backfill the loop stops there with the same error,
    so later windows are not asked for. *)
Theorem lookup_failure_aborts
    (pre rest : list Log) (log : Log) (decoded : Decoded) (e : Error) (s s1 : State) :
  decodeLog web3 ITEM_PURCHASED_ABI_INPUT (Log.data log) (Log.topics log) = Ok decoded ->
  lookupFails log e ->
  processPurchases pre s = (Ok tt, s1) ->
  let asked (s : State) :=
    {| STOREFRONT_PURCHASES := ledger s; console := console s;
       requests := requests s ++ [ReqGetTransaction (Log.transactionHash log)] |} in
  processPurchases (pre ++ log :: rest) s = (Throw e, asked s1) /\
  (forall latestBlock i s0,
     i < latestBlock ->
     eth_getPastLogs PURCHASE_FILTER i (i + 500000) s0 = (Ok (pre ++ log :: rest), s) ->
     indexPastPurchases_loop latestBlock i s0 = (Throw e, asked s1)).
Proof.
  intros Hdecode Hfail Hpre asked.
  assert (Hone : forall s0, processPurchase log s0 = (Throw e, asked s0)).
  { intros s0. rewrite processPurchase_unfold, Hdecode.
    destruct Hfail as [-> | [-> ->]]; reflexivity. }
  assert (Hbatch : processPurchases (pre ++ log :: rest) s = (Throw e, asked s1)).
  { rewrite (processPurchases_app _ _ _ _ Hpre), processPurchases_cons, Hone.
    reflexivity. }
  split; [exact Hbatch|].
  intros latestBlock i s0 Hlt Hlogs.
  rewrite indexPastPurchases_loop_body.
  destruct (decide (i < latestBlock)) as [_|Hge]; [|contradiction].
  unfold mbind at 1. unfold M_bind at 1. rewrite Hlogs.
  unfold mbind, M_bind. rewrite Hbatch. reflexivity.
Qed.

(** ** The table after a batch *)

Lemma processed_resolved (purchaseLogs : list Log) (dt : Decoded * Transaction) :
  dt ∈ processed purchaseLogs ->
  exists log, log ∈ purchaseLogs /\ resolve log = Ok dt.
Proof.
  induction purchaseLogs as [|log rest IH]; simpl; intros Hin.
  - inversion Hin.
  - destruct (resolve log) as [dt'|e] eqn:Hres; [|inversion Hin].
    apply elem_of_cons in Hin as [->|Hin].
    + exists log. split; [left|exact Hres].
    + destruct (IH Hin) as (log' & Hlog' & Hres'). exists log'. split; [right|]; assumption.
Qed.

Lemma upserts_frame (dts : list (Decoded * Transaction))
    (L : gmap string PurchaseReceipt) (k : string) :
  k ∉ (fun dt => Transaction.hash dt.2) <$> dts ->
  foldl upsert L dts !! k = L !! k.
Proof.
  revert L. induction dts as [|dt dts IH]; intros L Hk; simpl; [reflexivity|].
  rewrite fmap_cons in Hk. apply not_elem_of_cons in Hk as [Hne Hk].
  rewrite (IH _ Hk). unfold upsert. apply lookup_insert_ne. congruence.
Qed.

Lemma upserts_last_wins (pre post : list (Decoded * Transaction))
    (dt : Decoded * Transaction) (L : gmap string PurchaseReceipt) :
  Forall (fun dt' => Transaction.hash dt'.2 <> Transaction.hash dt.2) post ->
  foldl upsert L (pre ++ dt :: post) !! Transaction.hash dt.2
  = Some (makeReceipt dt.1 dt.2).
Proof.
  intros Hpost. rewrite foldl_app. simpl. rewrite upserts_frame.
  - unfold upsert. apply lookup_insert_eq.
  - intros Hin. apply list_elem_of_fmap in Hin as (dt' & Heq & Hin).
    rewrite Forall_forall in Hpost. apply (Hpost dt' Hin). congruence.
Qed.

Lemma upserts_lookup (dts : list (Decoded * Transaction))
    (L : gmap string PurchaseReceipt) (k : string) :
  ((k ∉ (fun dt => Transaction.hash dt.2) <$> dts) /\ foldl upsert L dts !! k = L !! k) \/
  exists dt, dt ∈ dts /\ Transaction.hash dt.2 = k /\
    foldl upsert L dts !! k = Some (makeReceipt dt.1 dt.2).
Proof.
  induction dts as [|dt dts IH] using rev_ind.
  { left. split; [apply not_elem_of_nil|reflexivity]. }
  rewrite foldl_app. simpl. set (L' := foldl upsert L dts) in *. unfold upsert.
  destruct (decide (Transaction.hash dt.2 = k)) as [<-|Hne].
  - right. exists dt. rewrite lookup_insert_eq.
    split; [apply elem_of_app; right; left|]. split; reflexivity.
  - rewrite lookup_insert_ne by exact Hne.
    destruct IH as [[Hnot IH]|(dt' & Hin & Hk & IH)].
    { left. split; [|exact IH]. rewrite fmap_app. simpl.
      intros Hin. apply elem_of_app in Hin as [Hin|Hin]; [exact (Hnot Hin)|].
      apply list_elem_of_singleton in Hin. congruence. }
    right. exists dt'. split; [apply elem_of_app; left; exact Hin|].
    split; assumption.
Qed.

Lemma upserts_keep (dts : list (Decoded * Transaction))
    (L : gmap string PurchaseReceipt) (k : string) :
  is_Some (L !! k) -> is_Some (foldl upsert L dts !! k).
Proof.
  intros HL. destruct (upserts_lookup dts L k) as [[_ ->]|(dt & _ & _ & ->)];
    [exact HL|eexists; reflexivity].
Qed.

(** C6. One log either has its receipt assembled from the decoded fields
    and the transaction, all five fields, and stored under the transaction's
    hash, or it throws and the table is as it was. After a batch, whatever
    it returns, every key holds what it held before or a receipt assembled
    in full for a log of the batch. *)
Theorem no_partial_entry (purchaseLogs : list Log) (log : Log) (s : State) :
  ((exists decoded tx,
      resolve log = Ok (decoded, tx) /\
      (processPurchase log s).1 = Ok tt /\
      ledger (processPurchase log s).2 =
        <[Transaction.hash tx :=
            {| from := Transaction.from tx;
               item := Decoded.item decoded;
               quantity := parseInt (Decoded.quantity decoded);
               total := parseInt (Transaction.value tx);
               transactionId := Transaction.hash tx |}]> (ledger s))
   \/
   (exists e,
      resolve log = Throw e /\
      (processPurchase log s).1 = Throw e /\
      ledger (processPurchase log s).2 = ledger s))
  /\
  (forall k,
     let s' := (processPurchases purchaseLogs s).2 in
     ledger s' !! k = ledger s !! k \/
     exists log' decoded tx,
       log' ∈ purchaseLogs /\ resolve log' = Ok (decoded, tx) /\
       Transaction.hash tx = k /\
       ledger s' !! k = Some (makeReceipt decoded tx)).
Proof.
  split.
  - rewrite processPurchase_unfold. unfold resolve.
    destruct (decodeLog _ _ _ _) as [decoded|e].
    + destruct (getTransaction web3 (Log.transactionHash log)) as [[tx|]|e]; simpl.
      * left. exists decoded, tx. repeat split.
      * right. exists TypeError. repeat split.
      * right. exists e. repeat split.
    + right. exists e. repeat split.
  - intros k. rewrite processPurchases_spec. simpl.
    destruct (upserts_lookup (processed purchaseLogs) (ledger s) k)
      as [[_ Hsame]|([decoded tx] & Hin & Hk & Hnew)]; [left; exact Hsame|].
    right. destruct (processed_resolved _ _ Hin) as (log' & Hlog' & Hres).
    exists log', decoded, tx. repeat split; assumption.
Qed.

(** C8. A batch stores one receipt and writes one line for each log it
    processes, in the same order, and the line reads
    [[<hash>] <quantity> of "<item>" were purchased by <from> for <value> wei];
    a log on which processing throws writes no line. *)
Theorem one_line_per_receipt (purchaseLogs : list Log) (log : Log) (s : State) :
  let s' := (processPurchases purchaseLogs s).2 in
  ledger s' = foldl upsert (ledger s) (processed purchaseLogs) /\
  console s' = console s ++
    ((fun dt : Decoded * Transaction =>
        "[" +:+ Transaction.hash dt.2 +:+ "] " +:+ Decoded.quantity dt.1 +:+ " of "
          +:+ String "034"%char EmptyString +:+ Decoded.item dt.1 +:+ String "034"%char EmptyString
          +:+ " were purchased by " +:+ Transaction.from dt.2 +:+ " for "
          +:+ Transaction.value dt.2 +:+ " wei") <$> processed purchaseLogs) /\
  ((processPurchase log s).1 <> Ok tt -> console (processPurchase log s).2 = console s).
Proof.
  simpl. split; [|split].
  - rewrite processPurchases_spec. reflexivity.
  - rewrite processPurchases_spec. simpl. f_equal.
    apply list_fmap_ext. intros _ [decoded tx] _. reflexivity.
  - rewrite processPurchase_unfold.
    destruct (decodeLog _ _ _ _) as [decoded|e]; [|reflexivity].
    destruct (getTransaction web3 (Log.transactionHash log)) as [[tx|]|e]; simpl;
      [intros Hne; contradiction Hne; reflexivity|reflexivity|reflexivity].
Qed.

(** C10. A batch changes the table only at the hashes of the transactions of
    the logs it processes: every other key holds what it held, no key is
    lost, and a processed key holds the receipt of the last processed log
    with that hash, whatever it held before. *)
Theorem batch_frame (purchaseLogs : list Log) (s : State) :
  let s' := (processPurchases purchaseLogs s).2 in
  (forall k,
     k ∉ (fun dt => Transaction.hash dt.2) <$> processed purchaseLogs ->
     ledger s' !! k = ledger s !! k) /\
  (forall k, is_Some (ledger s !! k) -> is_Some (ledger s' !! k)) /\
  (forall pre dt post,
     processed purchaseLogs = pre ++ dt :: post ->
     Forall (fun dt' => Transaction.hash dt'.2 <> Transaction.hash dt.2) post ->
     ledger s' !! Transaction.hash dt.2 = Some (makeReceipt dt.1 dt.2)).
Proof.
  simpl. rewrite processPurchases_spec. simpl. split; [|split].
  - intros k Hk. apply upserts_frame, Hk.
  - intros k. apply upserts_keep.
  - intros pre dt post -> Hpost. apply upserts_last_wins, Hpost.
Qed.

(** ** The receipt of a purchase *)

(** C7, as the code has it. The receipt stored for a processed log takes its
    sender and its hash from the transaction that was looked up and its
    total from that transaction's value alone, read with [parseInt]: when
    the value is the decimal notation of [v], the total is the double
    nearest to [v], which is [v] itself as long as [v] is at most 2^53. *)
Theorem total_is_parsed_value
    (log : Log) (decoded : Decoded) (tx : Transaction) (s : State) :
  resolve log = Ok (decoded, tx) ->
  let s' := (processPurchase log s).2 in
  ledger s' !! Transaction.hash tx =
    Some {| from := Transaction.from tx;
            item := Decoded.item decoded;
            quantity := parseInt (Decoded.quantity decoded);
            total := parseInt (Transaction.value tx);
            transactionId := Transaction.hash tx |} /\
  (forall v : N,
     Transaction.value tx = pretty v ->
     parseInt (Transaction.value tx) = toDouble (Z.of_N v) /\
     ((v <= 2 ^ 53)%N -> parseInt (Transaction.value tx) = Int (Z.of_N v))).
Proof.
  intros Hres. simpl. split.
  - rewrite processPurchase_unfold. unfold resolve in Hres.
    destruct (decodeLog _ _ _ _) as [decoded'|e]; [|discriminate].
    destruct (getTransaction web3 (Log.transactionHash log)) as [[tx'|]|e];
      try discriminate.
    inversion Hres; subst. simpl. apply lookup_insert_eq.
  - intros v ->. rewrite parseInt_pretty. split; [reflexivity|].
    intros Hv. apply toDouble_safe. lia.
Qed.

(** ** The invariant of the table *)

Lemma preserves_bind {A B : Type} (P : State -> Prop) (m : M A) (f : A -> M B) :
  preserves P m -> (forall a, preserves P (f a)) -> preserves P (m ≫= f).
Proof.
  intros Hm Hf s Hs. unfold mbind, M_bind. specialize (Hm s Hs).
  destruct (m s) as [[a|e] s']; [apply Hf|]; exact Hm.
Qed.

Lemma preserves_processPurchases (P : State -> Prop) :
  (forall log, preserves P (processPurchase log)) ->
  forall purchaseLogs, preserves P (processPurchases purchaseLogs).
Proof.
  intros Hone purchaseLogs.
  induction purchaseLogs as [|log rest IH]; [intros s Hs; exact Hs|].
  simpl. apply preserves_bind; [apply Hone|intros _; exact IH].
Qed.

Lemma preserves_loop (P : State -> Prop) (latestBlock : Z) :
  (forall filter fromBlock toBlock,
     preserves P (request (ReqGetPastLogs filter fromBlock toBlock))) ->
  (forall log, preserves P (processPurchase log)) ->
  forall i, preserves P (indexPastPurchases_loop latestBlock i).
Proof.
  intros Hreq Hone i.
  remember (Z.to_nat (latestBlock - i)) as n eqn:Hn.
  revert i Hn. induction (lt_wf n) as [n _ IH]. intros i Hn s Hs.
  rewrite indexPastPurchases_loop_body.
  destruct (decide (i < latestBlock)) as [Hlt|Hge]; [|exact Hs].
  revert s Hs. apply preserves_bind.
  - unfold eth_getPastLogs. apply preserves_bind; [apply Hreq|].
    intros _ s Hs. exact Hs.
  - intros purchaseLogs. apply preserves_bind.
    + apply preserves_processPurchases, Hone.
    + intros _. apply (IH (Z.to_nat (latestBlock - (i + 500000)))); [lia|reflexivity].
Qed.

Lemma preserves_run (P : State -> Prop) :
  (forall r, preserves P (request r)) ->
  (forall line, preserves P (console_log line)) ->
  (forall log, preserves P (processPurchase log)) ->
  forall op, preserves P (run op).
Proof.
  intros Hreq Hlog Hone [purchaseLogs|latestBlock|[e|] newPurchase|]; simpl.
  - apply preserves_processPurchases, Hone.
  - apply preserves_loop; [intros; apply Hreq|assumption].
  - intros s Hs. exact Hs.
  - intros s Hs. exact (preserves_processPurchases P Hone [newPurchase] s Hs).
  - unfold start. apply preserves_bind.
    + unfold eth_getBlockNumber. apply preserves_bind; [apply Hreq|].
      intros _ s Hs. exact Hs.
    + intros currentBlockNumber. apply preserves_bind; [apply Hlog|].
      intros _. apply preserves_bind; [apply Hreq|].
      intros _. apply preserves_loop; [intros; apply Hreq|assumption].
Qed.

Lemma ledgerInvariant_initial : ledgerInvariant initial.
Proof. intros k r Hk. simpl in Hk. rewrite lookup_empty in Hk. discriminate. Qed.

Lemma ledgerInvariant_mono (s s' : State) :
  ledger s' = ledger s ->
  (forall r, r ∈ requests s -> r ∈ requests s') ->
  ledgerInvariant s -> ledgerInvariant s'.
Proof.
  intros Hledger Hreq Hinv k r Hk. rewrite Hledger in Hk.
  destruct (Hinv k r Hk) as (Hid & log & decoded & tx & Hres & Hasked & Hhash & Hr).
  split; [exact Hid|]. exists log, decoded, tx. auto.
Qed.

Lemma ledgerInvariant_processPurchase (log : Log) :
  preserves ledgerInvariant (processPurchase log).
Proof.
  intros s Hinv. rewrite processPurchase_unfold.
  destruct (decodeLog _ _ _ _) as [decoded|e] eqn:Hdecode; [|exact Hinv].
  destruct (getTransaction web3 (Log.transactionHash log)) as [[tx|]|e] eqn:Htx; simpl.
  - intros k r Hk. simpl in Hk.
    destruct (decide (Transaction.hash tx = k)) as [<-|Hne].
    + rewrite lookup_insert_eq in Hk. inversion Hk; subst r. split; [reflexivity|].
      exists log, decoded, tx. unfold resolve. rewrite Hdecode, Htx. simpl.
      repeat split. apply elem_of_app. right. left.
    + rewrite lookup_insert_ne in Hk by exact Hne.
      destruct (Hinv k r Hk) as (Hid & log' & decoded' & tx' & Hres & Hasked & Hhash & Hr).
      split; [exact Hid|]. exists log', decoded', tx'. simpl.
      repeat split; try assumption. apply elem_of_app. left. exact Hasked.
  - eapply ledgerInvariant_mono; [| |exact Hinv]; simpl; [reflexivity|].
    intros r Hr. apply elem_of_app. left. exact Hr.
  - eapply ledgerInvariant_mono; [| |exact Hinv]; simpl; [reflexivity|].
    intros r Hr. apply elem_of_app. left. exact Hr.
Qed.

(** C9. The table starts with the invariant and every operation of the
    script keeps it: each key holds a receipt whose [transactionId] is that
    key, and the key is the hash of the transaction that a recorded lookup
    returned and from which the receipt was assembled. *)
Theorem ledger_invariant_kept (op : Operation) (s : State) :
  ledgerInvariant s ->
  ledgerInvariant initial /\ ledgerInvariant (run op s).2.
Proof.
  intros Hinv. split; [exact ledgerInvariant_initial|].
  revert s Hinv. apply preserves_run.
  - intros r s Hinv. eapply ledgerInvariant_mono; [| |exact Hinv]; simpl; [reflexivity|].
    intros r' Hr'. apply elem_of_app. left. exact Hr'.
  - intros line s Hinv. eapply ledgerInvariant_mono; [| |exact Hinv]; simpl;
      [reflexivity|auto].
  - exact ledgerInvariant_processPurchase.
Qed.

(** ** Deliveries in any order, any number of times *)

Lemma genuine_outcome (purchaseLogs : list Log) :
  Forall genuine purchaseLogs -> outcome purchaseLogs = Ok tt.
Proof.
  induction 1 as [|log rest (decoded & tx & Hres & _) _ IH]; simpl; [reflexivity|].
  rewrite Hres. exact IH.
Qed.

Lemma genuine_processed (purchaseLogs : list Log) (log : Log) :
  Forall genuine purchaseLogs -> log ∈ purchaseLogs ->
  exists decoded tx, resolve log = Ok (decoded, tx) /\
    Transaction.hash tx = Log.transactionHash log /\
    (decoded, tx) ∈ processed purchaseLogs.
Proof.
  induction 1 as [|log' rest (decoded & tx & Hres & Hhash) _ IH]; intros Hin.
  - inversion Hin.
  - simpl. rewrite Hres. apply elem_of_cons in Hin as [->|Hin].
    + exists decoded, tx. repeat split; [assumption..|left].
    + destruct (IH Hin) as (decoded' & tx' & Hres' & Hhash' & Hin').
      exists decoded', tx'. repeat split; [assumption..|right; exact Hin'].
Qed.

Lemma deliver_concat (batches : list (list Log)) (s : State) :
  Forall genuine (List.concat batches) ->
  deliver batches s = (processPurchases (List.concat batches) s).2.
Proof.
  revert s. induction batches as [|batch batches IH]; intros s Hgen; [reflexivity|].
  simpl in Hgen. apply Forall_app in Hgen as [Hbatch Hrest].
  change (deliver (batch :: batches) s)
    with (deliver batches (processPurchases batch s).2).
  rewrite (IH _ Hrest). change (List.concat (batch :: batches))
    with (batch ++ List.concat batches).
  pose proof (processPurchases_spec batch s) as Hspec.
  rewrite (genuine_outcome _ Hbatch) in Hspec.
  rewrite (processPurchases_app _ _ _ _ Hspec), Hspec. reflexivity.
Qed.

Section Distinct.

Variable logs : list Log.
Hypothesis logs_distinct : NoDup (Log.transactionHash <$> logs).
Hypothesis logs_genuine : Forall genuine logs.

Lemma same_hash_same_log (x y : Log) :
  x ∈ logs -> y ∈ logs -> Log.transactionHash x = Log.transactionHash y -> x = y.
Proof.
  clear logs_genuine. induction logs as [|z l IH]; intros Hx Hy Heq.
  - inversion Hx.
  - rewrite fmap_cons in logs_distinct.
    apply NoDup_cons in logs_distinct as [Hz Hl].
    apply elem_of_cons in Hx as [->|Hx]; apply elem_of_cons in Hy as [->|Hy].
    + reflexivity.
    + contradiction Hz. rewrite Heq. apply list_elem_of_fmap. eauto.
    + contradiction Hz. rewrite <- Heq. apply list_elem_of_fmap. eauto.
    + apply IH; assumption.
Qed.

(** The table after a batch of logs taken from [logs], key by key. *)
Lemma delivered_lookup (batch : list Log) (L : gmap string PurchaseReceipt) (k : string) :
  (forall log, log ∈ batch -> log ∈ logs) ->
  foldl upsert L (processed batch) !! k =
  match List.find (fun log => String.eqb (Log.transactionHash log) k) batch with
  | Some log => receiptOf log
  | None => L !! k
  end.
Proof.
  intros Hsub.
  assert (Hgen : Forall genuine batch).
  { apply Forall_forall. intros log Hlog.
    rewrite Forall_forall in logs_genuine. apply logs_genuine, Hsub, Hlog. }
  destruct (List.find _ batch) as [log|] eqn:Hfind.
  - apply find_some in Hfind as [Hlog Hk]. apply list_elem_of_In in Hlog.
    apply String.eqb_eq in Hk.
    destruct (genuine_processed _ _ Hgen Hlog) as (decoded & tx & Hres & Hhash & Hin).
    unfold receiptOf. rewrite Hres.
    destruct (upserts_lookup (processed batch) L k)
      as [[Hnot _]|(dt' & Hin' & Hk' & ->)].
    + contradiction Hnot. apply list_elem_of_fmap. exists (decoded, tx).
      split; [simpl; congruence|exact Hin].
    + destruct (processed_resolved _ _ Hin') as (log' & Hlog' & Hres').
      destruct (genuine_processed _ _ Hgen Hlog')
        as (decoded'' & tx'' & Hres'' & Hhash'' & _).
      rewrite Hres'' in Hres'. inversion Hres'; subst dt'. simpl in Hk'.
      assert (log' = log) as -> by (apply same_hash_same_log; auto; congruence).
      rewrite Hres in Hres''. inversion Hres''; subst. reflexivity.
  - apply upserts_frame. intros Hin.
    apply list_elem_of_fmap in Hin as (dt & Hk & Hin).
    destruct (processed_resolved _ _ Hin) as (log & Hlog & Hres).
    destruct (genuine_processed _ _ Hgen Hlog) as (decoded & tx & Hres' & Hhash & _).
    rewrite Hres' in Hres. inversion Hres; subst dt. simpl in Hk.
    apply list_elem_of_In in Hlog.
    apply (find_none _ _ Hfind) in Hlog.
    apply String.eqb_neq in Hlog. congruence.
Qed.

Lemma find_hash (batch : list Log) (k : string) :
  (forall log, log ∈ batch -> log ∈ logs) ->
  match List.find (fun log => String.eqb (Log.transactionHash log) k) batch with
  | Some log => log ∈ batch /\ Log.transactionHash log = k
  | None => forall log, log ∈ batch -> Log.transactionHash log <> k
  end.
Proof.
  intros Hsub. destruct (List.find _ batch) as [log|] eqn:Hfind.
  - apply find_some in Hfind as [Hlog Hk]. apply list_elem_of_In in Hlog.
    apply String.eqb_eq in Hk. auto.
  - intros log Hlog. apply list_elem_of_In in Hlog.
    apply (find_none _ _ Hfind) in Hlog. apply String.eqb_neq in Hlog. exact Hlog.
Qed.

End Distinct.

(** C2. Take logs with pairwise distinct transaction hashes, each of which
    decodes and has its transaction found under the hash asked for. However
    they are delivered (in any order, split into any batches, each log
    any number of times, at least once) the table ends up as after one
    delivery of each: one entry per hash, holding the receipt of that log,
    and nothing else changed. *)
Theorem delivery_idempotent
    (logs : list Log) (deliveries : list (list Log)) (s : State) :
  NoDup (Log.transactionHash <$> logs) ->
  Forall genuine logs ->
  (forall log, log ∈ List.concat deliveries <-> log ∈ logs) ->
  let once := ledger (processPurchases logs s).2 in
  let final := ledger (deliver deliveries s) in
  final = once /\
  (forall log, log ∈ logs ->
     exists decoded tx, resolve log = Ok (decoded, tx) /\
       final !! Log.transactionHash log = Some (makeReceipt decoded tx)) /\
  (forall k, k ∉ Log.transactionHash <$> logs -> final !! k = ledger s !! k) /\
  (ledger s = ∅ ->
     dom final = list_to_set (Log.transactionHash <$> logs) /\
     size final = List.length logs).
Proof.
  intros Hdistinct Hgenuine Hsame once final.
  assert (Hsub : forall log, log ∈ List.concat deliveries -> log ∈ logs)
    by (intros log; apply Hsame).
  assert (Hgen : Forall genuine (List.concat deliveries)).
  { apply Forall_forall. intros log Hlog.
    rewrite Forall_forall in Hgenuine. apply Hgenuine, Hsub, Hlog. }
  assert (Hfinal : forall k, final !! k =
    match List.find (fun log => String.eqb (Log.transactionHash log) k)
            (List.concat deliveries) with
    | Some log => receiptOf log
    | None => ledger s !! k
    end).
  { intros k. subst final. rewrite (deliver_concat _ _ Hgen), processPurchases_spec.
    simpl. apply (delivered_lookup logs Hdistinct Hgenuine). exact Hsub. }
  assert (Honce : forall k, once !! k =
    match List.find (fun log => String.eqb (Log.transactionHash log) k) logs with
    | Some log => receiptOf log
    | None => ledger s !! k
    end).
  { intros k. subst once. rewrite processPurchases_spec. simpl.
    apply (delivered_lookup logs Hdistinct Hgenuine). auto. }
  assert (Hhit : forall log, log ∈ logs ->
    final !! Log.transactionHash log = receiptOf log).
  { intros log Hlog. rewrite Hfinal.
    pose proof (find_hash logs (List.concat deliveries) (Log.transactionHash log) Hsub) as Hf.
    destruct (List.find _ (List.concat deliveries)) as [log'|].
    - destruct Hf as [Hlog' Hk].
      rewrite (same_hash_same_log logs Hdistinct log' log); auto.
    - exfalso. apply (Hf log); [apply Hsame, Hlog|reflexivity]. }
  assert (Hmiss : forall k, k ∉ Log.transactionHash <$> logs ->
    final !! k = ledger s !! k).
  { intros k Hk. rewrite Hfinal.
    pose proof (find_hash logs (List.concat deliveries) k Hsub) as Hf.
    destruct (List.find _ (List.concat deliveries)) as [log'|]; [|reflexivity].
    destruct Hf as [Hlog' Hk']. contradiction Hk.
    apply list_elem_of_fmap. exists log'. split; [symmetry; exact Hk'|auto]. }
  assert (Hreceipt : forall log, log ∈ logs ->
    exists decoded tx, resolve log = Ok (decoded, tx) /\
      receiptOf log = Some (makeReceipt decoded tx)).
  { intros log Hlog. rewrite Forall_forall in Hgenuine.
    destruct (Hgenuine log Hlog) as (decoded & tx & Hres & _).
    exists decoded, tx. split; [exact Hres|]. unfold receiptOf. rewrite Hres.
    reflexivity. }
  split; [|split; [|split]].
  - apply map_eq. intros k. rewrite Honce.
    pose proof (find_hash logs logs k (fun _ H => H)) as Hf.
    destruct (List.find _ logs) as [log|].
    + destruct Hf as [Hlog <-]. apply Hhit, Hlog.
    + apply Hmiss. intros Hin. apply list_elem_of_fmap in Hin as (log & -> & Hlog).
      apply (Hf log Hlog). reflexivity.
  - intros log Hlog. destruct (Hreceipt log Hlog) as (decoded & tx & Hres & Hr).
    exists decoded, tx. split; [exact Hres|]. rewrite Hhit by exact Hlog. exact Hr.
  - exact Hmiss.
  - intros Hempty.
    assert (Hdom : dom final = list_to_set (Log.transactionHash <$> logs)).
    { apply set_eq. intros k. rewrite elem_of_dom, elem_of_list_to_set. split.
      - intros Hsome. destruct (decide (k ∈ Log.transactionHash <$> logs)) as [Hin|Hnot];
          [exact Hin|].
        rewrite (Hmiss k Hnot), Hempty, lookup_empty in Hsome.
        destruct Hsome as [r Hr]. discriminate.
      - intros Hin. apply list_elem_of_fmap in Hin as (log & -> & Hlog).
        destruct (Hreceipt log Hlog) as (decoded & tx & _ & Hr).
        rewrite (Hhit log Hlog), Hr. eexists. reflexivity. }
    split; [exact Hdom|].
    rewrite <- size_dom, Hdom, size_list_to_set by exact Hdistinct.
    apply length_fmap.
Qed.

(** ** The windows of the backfill *)

Lemma ceilDiv_nonpos (a : Z) : a <= 0 -> ceilDiv a 500000 <= 0.
Proof. unfold ceilDiv. intros Ha. Z.div_mod_to_equations. lia. Qed.

Lemma ceilDiv_step (a : Z) :
  0 < a -> ceilDiv a 500000 = ceilDiv (a - 500000) 500000 + 1 /\ 0 <= ceilDiv (a - 500000) 500000.
Proof. unfold ceilDiv. intros Ha. Z.div_mod_to_equations. lia. Qed.

Lemma ceilDiv_covers (a : Z) : a <= ceilDiv a 500000 * 500000 < a + 500000.
Proof. unfold ceilDiv. Z.div_mod_to_equations. lia. Qed.

Lemma scheduleFrom_length (n : nat) (i : Z) : List.length (scheduleFrom n i) = n.
Proof. revert i. induction n as [|n IH]; intros i; simpl; [|rewrite IH]; reflexivity. Qed.

Lemma scheduleFrom_lookup (n k : nat) (i : Z) :
  (k < n)%nat ->
  scheduleFrom n i !! k = Some (i + Z.of_nat k * 500000, i + Z.of_nat k * 500000 + 500000).
Proof.
  revert k i. induction n as [|n IH]; intros k i Hk; [lia|].
  destruct k as [|k]; simpl.
  - do 2 f_equal; lia.
  - rewrite IH by lia. do 2 f_equal; lia.
Qed.

Lemma windows_app (a b : list Request) : windows (a ++ b) = windows a ++ windows b.
Proof. apply omap_app. Qed.

Lemma windows_lookups (purchaseLogs : list Log) : windows (lookups purchaseLogs) = [].
Proof.
  induction purchaseLogs as [|log rest IH]; simpl; [reflexivity|].
  destruct (decodeLog _ _ _ _); [|reflexivity]. simpl.
  destruct (resolve log); [exact IH|reflexivity].
Qed.

Lemma loop_windows (latestBlock : Z) (n : nat) :
  forall (i : Z) (s : State),
    n = Z.to_nat (ceilDiv (latestBlock - i) 500000) ->
    exists issued,
      windows (requests (indexPastPurchases_loop latestBlock i s).2)
        = windows (requests s) ++ issued /\
      issued `prefix_of` scheduleFrom n i /\
      ((indexPastPurchases_loop latestBlock i s).1 = Ok tt -> issued = scheduleFrom n i) /\
      (answersAll -> (indexPastPurchases_loop latestBlock i s).1 = Ok tt).
Proof.
  induction n as [|n IH]; intros i s Hn.
  - assert (latestBlock <= i) as Hge.
    { destruct (Z_lt_le_dec i latestBlock) as [Hlt|Hge]; [|exact Hge].
      destruct (ceilDiv_step (latestBlock - i)); lia. }
    rewrite indexPastPurchases_loop_done by exact Hge.
    exists []. simpl. rewrite app_nil_r. auto.
  - assert (i < latestBlock) as Hlt.
    { destruct (Z_lt_le_dec i latestBlock) as [Hlt|Hge]; [exact Hlt|].
      pose proof (ceilDiv_nonpos (latestBlock - i)). lia. }
    destruct (ceilDiv_step (latestBlock - i)) as [Hstep Hpos]; [lia|].
    assert (n = Z.to_nat (ceilDiv (latestBlock - (i + 500000)) 500000)) as Hn'.
    { replace (latestBlock - (i + 500000)) with (latestBlock - i - 500000) by lia. lia. }
    rewrite indexPastPurchases_loop_step by exact Hlt. simpl.
    destruct (getPastLogs web3 PURCHASE_FILTER i (i + 500000)) as [purchaseLogs|e] eqn:Hlogs.
    + rewrite processPurchases_spec. simpl.
      destruct (outcome purchaseLogs) as [[]|e] eqn:Hout.
      * match goal with
        | |- context [indexPastPurchases_loop latestBlock (i + 500000) ?s1] =>
            destruct (IH (i + 500000) s1 Hn') as (issued & Hreq & Hpre & Hall & Hok)
        end.
        exists ((i, i + 500000) :: issued). rewrite Hreq. simpl.
        rewrite !windows_app, windows_lookups, app_nil_r. simpl.
        rewrite <- app_assoc. split; [reflexivity|]. split; [|split].
        -- apply prefix_cons, Hpre.
        -- intros Hr. rewrite (Hall Hr). reflexivity.
        -- exact Hok.
      * exists [(i, i + 500000)]. simpl.
        rewrite !windows_app, windows_lookups, app_nil_r. simpl.
        split; [reflexivity|]. split; [apply prefix_cons, prefix_nil|].
        split; [discriminate|].
        intros Hall. destruct (Hall i (i + 500000)) as (logs' & Heq & Hout').
        rewrite Hlogs in Heq. inversion Heq; subst. congruence.
    + exists [(i, i + 500000)]. simpl. rewrite windows_app. simpl.
      split; [reflexivity|]. split; [apply prefix_cons, prefix_nil|].
      split; [discriminate|].
      intros Hall. destruct (Hall i (i + 500000)) as (logs' & Heq & _). congruence.
Qed.

(** C1, as the code has it. The backfill asks for the windows of
    [schedule latestBlock], in that order, stopping at the first window
    whose request or whose logs throw, and asks for all of them when it
    returns normally, which it does when every request is answered and
    every log processes. The schedule has ceil(latestBlock / 500000)
    windows, none for [latestBlock <= 0]; window [k] is
    [(500000 k, 500000 k + 500000)]; read as half-open ranges the windows do
    not overlap and cover every block below [latestBlock]. The last window
    is not cut at [latestBlock]: it ends at the next multiple of 500000. *)
Theorem backfill_windows (latestBlock : Z) (s : State) :
  let n := Z.to_nat (ceilDiv latestBlock 500000) in
  (exists issued,
     windows (requests (indexPastPurchases latestBlock s).2)
       = windows (requests s) ++ issued /\
     issued `prefix_of` schedule latestBlock /\
     ((indexPastPurchases latestBlock s).1 = Ok tt -> issued = schedule latestBlock) /\
     (answersAll -> (indexPastPurchases latestBlock s).1 = Ok tt)) /\
  List.length (schedule latestBlock) = n /\
  (latestBlock <= 0 -> schedule latestBlock = []) /\
  (forall k : nat, (k < n)%nat ->
     schedule latestBlock !! k
     = Some (Z.of_nat k * 500000, Z.of_nat k * 500000 + 500000)) /\
  (forall (j k : nat) (w1 w2 : Z * Z),
     (j < k)%nat -> schedule latestBlock !! j = Some w1 ->
     schedule latestBlock !! k = Some w2 -> w1.2 <= w2.1) /\
  (forall b, 0 <= b < latestBlock ->
     exists w, w ∈ schedule latestBlock /\ w.1 <= b < w.2) /\
  (0 < latestBlock ->
     last (schedule latestBlock)
     = Some (ceilDiv latestBlock 500000 * 500000 - 500000,
             ceilDiv latestBlock 500000 * 500000) /\
     latestBlock <= ceilDiv latestBlock 500000 * 500000 < latestBlock + 500000).
Proof.
  intros n.
  assert (Hlookup : forall k : nat, (k < n)%nat ->
    schedule latestBlock !! k
    = Some (Z.of_nat k * 500000, Z.of_nat k * 500000 + 500000)).
  { intros k Hk. unfold schedule. fold n. rewrite scheduleFrom_lookup by exact Hk.
    do 2 f_equal. }
  assert (Hlength : List.length (schedule latestBlock) = n)
    by apply scheduleFrom_length.
  split; [|split; [|split; [|split; [|split; [|split]]]]].
  - unfold indexPastPurchases, schedule. apply loop_windows. f_equal. f_equal. lia.
  - exact Hlength.
  - intros Hle. unfold schedule.
    pose proof (ceilDiv_nonpos latestBlock Hle).
    replace (Z.to_nat (ceilDiv latestBlock 500000)) with O by lia. reflexivity.
  - exact Hlookup.
  - intros j k w1 w2 Hjk Hj Hk.
    assert (k < n)%nat as Hkn by (rewrite <- Hlength; eapply lookup_lt_Some, Hk).
    rewrite Hlookup in Hj, Hk by lia. inversion Hj; inversion Hk; subst. simpl. lia.
  - intros b Hb. pose proof (ceilDiv_covers latestBlock) as Hcover.
    assert (Z.to_nat (b / 500000) < n)%nat as Hk.
    { subst n. Z.div_mod_to_equations. lia. }
    exists (Z.of_nat (Z.to_nat (b / 500000)) * 500000,
            Z.of_nat (Z.to_nat (b / 500000)) * 500000 + 500000).
    split; [eapply list_elem_of_lookup_2, Hlookup, Hk|]. simpl.
    rewrite Z2Nat.id by (Z.div_mod_to_equations; lia).
    Z.div_mod_to_equations. lia.
  - intros Hpos. pose proof (ceilDiv_covers latestBlock) as Hcover.
    split; [|exact Hcover].
    rewrite last_lookup, Hlength.
    assert (0 < n)%nat as Hn by (subst n; lia).
    rewrite Hlookup by lia. do 2 f_equal; subst n; lia.
Qed.

(** ** The live subscription *)

Lemma subscriptions_app (a b : list Request) :
  subscriptions (a ++ b) = subscriptions a ++ subscriptions b.
Proof. apply omap_app. Qed.

Lemma subscriptions_kept_loop (latestBlock i : Z) (subs : list (string * Filter)) :
  preserves (fun s => subscriptions (requests s) = subs)
    (indexPastPurchases_loop latestBlock i).
Proof.
  apply preserves_loop.
  - intros filter fromBlock toBlock s Hs. simpl.
    rewrite subscriptions_app, Hs. apply app_nil_r.
  - intros log s Hs. rewrite processPurchase_unfold.
    destruct (decodeLog _ _ _ _) as [decoded|e]; [|exact Hs].
    destruct (getTransaction web3 (Log.transactionHash log)) as [[tx|]|e]; simpl;
      rewrite subscriptions_app, Hs; apply app_nil_r.
Qed.

(** C4, as the code has it. When the subscription reports an error, the
    callback throws that error and does nothing else: the state, and with
    it the list of subscriptions asked for, is unchanged. The only
    subscription is the one [start] asks for, once, with [PURCHASE_FILTER],
    after the block number was read. *)
Theorem subscription_error_surfaced (e : Error) (newPurchase : Log) (s : State) :
  onLogs (Some e) newPurchase s = (Throw e, s) /\
  subscriptions (requests (onLogs (Some e) newPurchase s).2) = subscriptions (requests s) /\
  subscriptions (requests (start s).2) =
    subscriptions (requests s) ++
    match getBlockNumber web3 with
    | Ok _ => [("logs", PURCHASE_FILTER)]
    | Throw _ => []
    end.
Proof.
  split; [reflexivity|]. split; [reflexivity|].
  unfold start, eth_getBlockNumber, eth_subscribe, mbind, M_bind, request, lift,
    console_log. simpl.
  destruct (getBlockNumber web3) as [currentBlockNumber|e']; simpl.
  - apply subscriptions_kept_loop. simpl.
    rewrite !subscriptions_app. simpl. rewrite app_nil_r. reflexivity.
  - rewrite subscriptions_app. reflexivity.
Qed.

(** ** Operations do not read the state *)

Lemma blind_ret {A : Type} (a : A) : blind (mret a).
Proof.
  exists (Ok a), [], [], []. intros [L c q]. unfold mret, M_ret. simpl.
  rewrite !app_nil_r. reflexivity.
Qed.

Lemma blind_throw {A : Type} (e : Error) : blind (@throw A e).
Proof.
  exists (Throw e), [], [], []. intros [L c q]. unfold throw. simpl.
  rewrite !app_nil_r. reflexivity.
Qed.

Lemma blind_lift {A : Type} (r : result A) : blind (lift r).
Proof.
  exists r, [], [], []. intros [L c q]. unfold lift. simpl.
  rewrite !app_nil_r. reflexivity.
Qed.

Lemma blind_request (r : Request) : blind (request r).
Proof.
  exists (Ok tt), [], [], [r]. intros [L c q]. unfold request. simpl.
  rewrite app_nil_r. reflexivity.
Qed.

Lemma blind_console_log (line : string) : blind (console_log line).
Proof.
  exists (Ok tt), [], [line], []. intros [L c q]. unfold console_log. simpl.
  rewrite app_nil_r. reflexivity.
Qed.

Lemma blind_store (key : string) (receipt : PurchaseReceipt) : blind (store key receipt).
Proof.
  exists (Ok tt), [(key, receipt)], [], []. intros [L c q]. unfold store. simpl.
  rewrite !app_nil_r. reflexivity.
Qed.

Lemma blind_bind {A B : Type} (m : M A) (f : A -> M B) :
  blind m -> (forall a, blind (f a)) -> blind (m ≫= f).
Proof.
  intros ([a|e] & stored & lines & asked & Hm) Hf.
  - destruct (Hf a) as (r' & stored' & lines' & asked' & Hfa).
    exists r', (stored ++ stored'), (lines ++ lines'), (asked ++ asked').
    intros s. unfold mbind, M_bind. rewrite Hm, Hfa. simpl.
    rewrite foldl_app, !app_assoc. reflexivity.
  - exists (Throw e), stored, lines, asked.
    intros s. unfold mbind, M_bind. rewrite Hm. reflexivity.
Qed.

Lemma blind_processPurchase (log : Log) : blind (processPurchase log).
Proof.
  unfold processPurchase. apply blind_bind; [apply blind_lift|]. intros decoded.
  apply blind_bind.
  { unfold eth_getTransaction. apply blind_bind; [apply blind_request|].
    intros _. apply blind_lift. }
  intros tx. apply blind_bind.
  { destruct tx; [apply blind_ret|apply blind_throw]. }
  intros tx'. apply blind_bind; [apply blind_store|].
  intros _. apply blind_console_log.
Qed.

Lemma blind_processPurchases (purchaseLogs : list Log) :
  blind (processPurchases purchaseLogs).
Proof.
  induction purchaseLogs as [|log rest IH]; [apply blind_ret|].
  simpl. apply blind_bind; [apply blind_processPurchase|intros _; exact IH].
Qed.

Lemma blind_loop (latestBlock i : Z) : blind (indexPastPurchases_loop latestBlock i).
Proof.
  remember (Z.to_nat (latestBlock - i)) as n eqn:Hn.
  revert i Hn. induction (lt_wf n) as [n _ IH]. intros i Hn.
  destruct (decide (i < latestBlock)) as [Hlt|Hge].
  - assert (Hstep : blind
      (purchaseLogs ← eth_getPastLogs PURCHASE_FILTER i (i + 500000);
       processPurchases purchaseLogs;;
       indexPastPurchases_loop latestBlock (i + 500000))).
    { apply blind_bind.
      { unfold eth_getPastLogs. apply blind_bind; [apply blind_request|].
        intros _. apply blind_lift. }
      intros purchaseLogs. apply blind_bind; [apply blind_processPurchases|].
      intros _. apply (IH (Z.to_nat (latestBlock - (i + 500000)))); [lia|reflexivity]. }
    destruct Hstep as (r & stored & lines & asked & Hstep).
    exists r, stored, lines, asked. intros s.
    rewrite indexPastPurchases_loop_body.
    destruct (decide (i < latestBlock)); [apply Hstep|contradiction].
  - exists (Ok tt), [], [], []. intros [L c q].
    rewrite indexPastPurchases_loop_done by lia. simpl.
    rewrite !app_nil_r. reflexivity.
Qed.

Lemma blind_start : blind start.
Proof.
  unfold start. apply blind_bind.
  { unfold eth_getBlockNumber. apply blind_bind; [apply blind_request|].
    intros _. apply blind_lift. }
  intros currentBlockNumber. apply blind_bind; [apply blind_console_log|].
  intros _. apply blind_bind; [apply blind_request|].
  intros _. apply blind_loop.
Qed.

Lemma blind_run (op : Operation) : blind (run op).
Proof.
  destruct op as [purchaseLogs|latestBlock|[e|] newPurchase|]; unfold run.
  - apply blind_processPurchases.
  - apply blind_loop.
  - apply blind_throw.
  - destruct (blind_processPurchases [newPurchase]) as (r & stored & lines & asked & H).
    exists (Ok tt), stored, lines, asked. intros s. unfold onLogs.
    rewrite H. reflexivity.
  - apply blind_start.
Qed.

Lemma stored_union (stored : list (string * PurchaseReceipt))
    (L : gmap string PurchaseReceipt) :
  foldl (fun L kr => <[kr.1 := kr.2]> L) L stored
  = foldl (fun L kr => <[kr.1 := kr.2]> L) ∅ stored ∪ L.
Proof.
  induction stored as [|kr stored IH] using rev_ind; simpl.
  - symmetry. apply (left_id_L ∅ (∪)).
  - rewrite !foldl_app. simpl. rewrite IH. apply insert_union_l.
Qed.

(** X1. No operation of the script reads the state it runs in. What an
    operation returns, writes to the console and asks of the node is the
    same from any state as from the initial one, and the table it leaves is
    the one it builds from the empty table laid over the table it found. In
    particular a log whose receipt is already stored is decoded, looked up
    and stored again, and no key is ever lost. *)
Theorem operations_do_not_read_state (op : Operation) (s : State) :
  (run op s).1 = (run op initial).1 /\
  ledger (run op s).2 = ledger (run op initial).2 ∪ ledger s /\
  console (run op s).2 = console s ++ console (run op initial).2 /\
  requests (run op s).2 = requests s ++ requests (run op initial).2 /\
  dom (ledger s) ⊆ dom (ledger (run op s).2).
Proof.
  destruct (blind_run op) as (r & stored & lines & asked & Hrun).
  rewrite (Hrun s), (Hrun initial). simpl.
  rewrite (stored_union stored (ledger s)).
  repeat split. rewrite dom_union. set_solver.
Qed.

(** ** Receipts and console lines *)

Lemma announced_mono (s s' : State) :
  ledger s' = ledger s ->
  (forall line, line ∈ console s -> line ∈ console s') ->
  announced s -> announced s'.
Proof.
  intros Hledger Hconsole Hinv k r Hk. rewrite Hledger in Hk.
  destruct (Hinv k r Hk) as (decoded & tx & Hr & Hhash & Hline).
  exists decoded, tx. auto.
Qed.

(** X2. Every receipt in the table has been announced: from the start and
    after every operation, each entry is the receipt assembled from some
    decoded fields and transaction whose line is on the console. *)
Theorem receipts_are_announced (op : Operation) (s : State) :
  announced s -> announced initial /\ announced (run op s).2.
Proof.
  intros Hinv. split.
  { intros k r Hk. simpl in Hk. rewrite lookup_empty in Hk. discriminate. }
  revert s Hinv. apply preserves_run.
  - intros r s Hinv. eapply announced_mono; [| |exact Hinv]; simpl; [reflexivity|auto].
  - intros line s Hinv. eapply announced_mono; [| |exact Hinv]; simpl; [reflexivity|].
    intros line' Hin. apply elem_of_app. left. exact Hin.
  - intros log s Hinv. rewrite processPurchase_unfold.
    destruct (decodeLog _ _ _ _) as [decoded|e]; [|exact Hinv].
    destruct (getTransaction web3 (Log.transactionHash log)) as [[tx|]|e]; simpl.
    + intros k r Hk. simpl in Hk.
      destruct (decide (Transaction.hash tx = k)) as [<-|Hne].
      * rewrite lookup_insert_eq in Hk. inversion Hk; subst r.
        exists decoded, tx. repeat split. simpl. apply elem_of_app. right. left.
      * rewrite lookup_insert_ne in Hk by exact Hne.
        destruct (Hinv k r Hk) as (decoded' & tx' & Hr & Hhash & Hline).
        exists decoded', tx'. repeat split; try assumption.
        simpl. apply elem_of_app. left. exact Hline.
    + eapply announced_mono; [| |exact Hinv]; simpl; [reflexivity|auto].
    + eapply announced_mono; [| |exact Hinv]; simpl; [reflexivity|auto].
Qed.

(** ** The transaction lookups of a batch *)

Lemma lookups_prefix (purchaseLogs : list Log) :
  lookups purchaseLogs `prefix_of`
    ((fun log => ReqGetTransaction (Log.transactionHash log)) <$> purchaseLogs).
Proof.
  induction purchaseLogs as [|log rest IH]; simpl; [apply prefix_nil|].
  destruct (decodeLog _ _ _ _); [|apply prefix_nil].
  apply prefix_cons. destruct (resolve log); [exact IH|apply prefix_nil].
Qed.

Lemma lookups_all (purchaseLogs : list Log) :
  outcome purchaseLogs = Ok tt ->
  lookups purchaseLogs
  = (fun log => ReqGetTransaction (Log.transactionHash log)) <$> purchaseLogs.
Proof.
  induction purchaseLogs as [|log rest IH]; simpl; [reflexivity|].
  unfold resolve. destruct (decodeLog _ _ _ _) as [decoded|e]; [|discriminate].
  destruct (getTransaction web3 (Log.transactionHash log)) as [[tx|]|e];
    try discriminate.
  intros Hout. rewrite (IH Hout). reflexivity.
Qed.

Lemma lookups_count (purchaseLogs : list Log) :
  (List.length (processed purchaseLogs) <= List.length (lookups purchaseLogs)
   <= S (List.length (processed purchaseLogs)))%nat.
Proof.
  induction purchaseLogs as [|log rest IH]; simpl; [lia|].
  unfold resolve. destruct (decodeLog _ _ _ _) as [decoded|e]; simpl; [|lia].
  destruct (getTransaction web3 (Log.transactionHash log)) as [[tx|]|e]; simpl; lia.
Qed.

(** X3. A batch asks the node for transactions only: one lookup per log, by
    the hash of the log, in the order of the batch, up to the first log that
    fails. It asks for all of them when it returns normally, and for as
    many as it stores receipts or one more. *)
Theorem lookups_in_order (purchaseLogs : list Log) (s : State) :
  exists asked,
    requests (processPurchases purchaseLogs s).2 = requests s ++ asked /\
    asked `prefix_of`
      ((fun log => ReqGetTransaction (Log.transactionHash log)) <$> purchaseLogs) /\
    ((processPurchases purchaseLogs s).1 = Ok tt ->
     asked = (fun log => ReqGetTransaction (Log.transactionHash log)) <$> purchaseLogs) /\
    (List.length (processed purchaseLogs) <= List.length asked
     <= S (List.length (processed purchaseLogs)))%nat.
Proof.
  exists (lookups purchaseLogs). rewrite processPurchases_spec. simpl.
  split; [reflexivity|]. split; [apply lookups_prefix|].
  split; [apply lookups_all|apply lookups_count].
Qed.

(** ** The receipt's quantity *)

(** X4. The quantity of a stored receipt is the quantity of the event read
    with [parseInt]: when the decoded quantity is the decimal notation of
    [q], the receipt holds the double nearest to [q], which is [q] itself
    as long as [q] is at most 2^53. *)
Theorem quantity_is_parsed
    (log : Log) (decoded : Decoded) (tx : Transaction) (q : N) (s : State) :
  resolve log = Ok (decoded, tx) ->
  Decoded.quantity decoded = pretty q ->
  exists r,
    ledger (processPurchase log s).2 !! Transaction.hash tx = Some r /\
    item r = Decoded.item decoded /\
    quantity r = toDouble (Z.of_N q) /\
    ((q <= 2 ^ 53)%N -> quantity r = Int (Z.of_N q)).
Proof.
  intros Hres Hq. exists (makeReceipt decoded tx). split.
  - rewrite processPurchase_unfold. unfold resolve in Hres.
    destruct (decodeLog _ _ _ _) as [decoded'|e]; [|discriminate].
    destruct (getTransaction web3 (Log.transactionHash log)) as [[tx'|]|e];
      try discriminate.
    inversion Hres; subst. simpl. apply lookup_insert_eq.
  - simpl. rewrite Hq, parseInt_pretty. split; [reflexivity|].
    split; [reflexivity|]. intros Hle. apply toDouble_safe. lia.
Qed.

(** ** The backfill as one batch *)

Lemma processPurchases_app_throw (pre rest : list Log) (e : Error) (s s1 : State) :
  processPurchases pre s = (Throw e, s1) ->
  processPurchases (pre ++ rest) s = (Throw e, s1).
Proof.
  revert s. induction pre as [|log pre IH]; intros s Hpre.
  - inversion Hpre.
  - rewrite <- app_comm_cons, processPurchases_cons.
    rewrite processPurchases_cons in Hpre.
    destruct (processPurchase log s) as [[[]|e'] s']; [apply IH|]; exact Hpre.
Qed.

Lemma windowLogs_answer (w : Z * Z) (purchaseLogs : list Log) :
  getPastLogs web3 PURCHASE_FILTER w.1 w.2 = Ok purchaseLogs ->
  windowLogs w = purchaseLogs.
Proof. intros H. unfold windowLogs. rewrite H. reflexivity. Qed.

Lemma loop_one_batch (latestBlock : Z) (n : nat) :
  forall (i : Z) (s t : State),
    n = Z.to_nat (ceilDiv (latestBlock - i) 500000) ->
    ledger s = ledger t -> console s = console t ->
    (forall w, w ∈ scheduleFrom n i ->
       exists purchaseLogs, getPastLogs web3 PURCHASE_FILTER w.1 w.2 = Ok purchaseLogs) ->
    let r := indexPastPurchases_loop latestBlock i s in
    let b := processPurchases (List.concat (windowLogs <$> scheduleFrom n i)) t in
    r.1 = b.1 /\ ledger r.2 = ledger b.2 /\ console r.2 = console b.2.
Proof.
  induction n as [|n IH]; intros i s t Hn Hledger Hconsole Hanswer; simpl.
  - assert (latestBlock <= i) as Hge.
    { destruct (Z_lt_le_dec i latestBlock) as [Hlt|Hge]; [|exact Hge].
      destruct (ceilDiv_step (latestBlock - i)); lia. }
    rewrite indexPastPurchases_loop_done by exact Hge. auto.
  - assert (i < latestBlock) as Hlt.
    { destruct (Z_lt_le_dec i latestBlock) as [Hlt|Hge]; [exact Hlt|].
      pose proof (ceilDiv_nonpos (latestBlock - i)). lia. }
    destruct (ceilDiv_step (latestBlock - i)) as [Hstep Hpos]; [lia|].
    assert (n = Z.to_nat (ceilDiv (latestBlock - (i + 500000)) 500000)) as Hn'.
    { replace (latestBlock - (i + 500000)) with (latestBlock - i - 500000) by lia. lia. }
    destruct (Hanswer (i, i + 500000)) as (purchaseLogs & Hlogs); [left|].
    rewrite (windowLogs_answer (i, i + 500000) purchaseLogs Hlogs).
    simpl in Hlogs.
    rewrite indexPastPurchases_loop_step by exact Hlt. simpl. rewrite Hlogs.
    pose proof (processPurchases_spec purchaseLogs t) as Ht.
    rewrite processPurchases_spec. simpl.
    destruct (outcome purchaseLogs) as [[]|e].
    + rewrite (processPurchases_app _ _ _ _ Ht).
      apply IH; simpl; try congruence.
      intros w Hw. apply Hanswer. right. exact Hw.
    + rewrite (processPurchases_app_throw _ _ _ _ _ Ht). simpl.
      rewrite Hledger, Hconsole. auto.
Qed.

(** X5. When the node answers every window of the backfill, the backfill
    does to the table and the console what one call of [processPurchases]
    does on the logs of all its windows put end to end, and it returns or
    throws what that call returns or throws. *)
Theorem backfill_is_one_batch (latestBlock : Z) (s : State) :
  (forall w, w ∈ schedule latestBlock ->
     exists purchaseLogs, getPastLogs web3 PURCHASE_FILTER w.1 w.2 = Ok purchaseLogs) ->
  let r := indexPastPurchases latestBlock s in
  let b := processPurchases (backfillLogs latestBlock) s in
  r.1 = b.1 /\ ledger r.2 = ledger b.2 /\ console r.2 = console b.2.
Proof.
  intros Hanswer. unfold indexPastPurchases, backfillLogs, schedule.
  apply loop_one_batch; try reflexivity; [|exact Hanswer].
  f_equal. f_equal. lia.
Qed.

Lemma loop_rejected (latestBlock : Z) (e : Error) (k : nat) :
  forall (i : Z) (s t : State),
    ledger s = ledger t -> console s = console t ->
    i + Z.of_nat k * 500000 < latestBlock ->
    (forall j : nat, (j < k)%nat ->
       exists purchaseLogs,
         getPastLogs web3 PURCHASE_FILTER (i + Z.of_nat j * 500000)
           (i + Z.of_nat j * 500000 + 500000) = Ok purchaseLogs /\
         outcome purchaseLogs = Ok tt) ->
    getPastLogs web3 PURCHASE_FILTER (i + Z.of_nat k * 500000)
      (i + Z.of_nat k * 500000 + 500000) = Throw e ->
    let r := indexPastPurchases_loop latestBlock i s in
    let b := processPurchases (List.concat (windowLogs <$> scheduleFrom k i)) t in
    r.1 = Throw e /\ b.1 = Ok tt /\
    ledger r.2 = ledger b.2 /\ console r.2 = console b.2 /\
    windows (requests r.2) = windows (requests s) ++ scheduleFrom (S k) i.
Proof.
  induction k as [|k IH]; intros i s t Hledger Hconsole Hlt Hbefore Hreject.
  - replace (i + Z.of_nat 0 * 500000) with i in * by lia.
    rewrite indexPastPurchases_loop_step by exact Hlt. simpl. rewrite Hreject. simpl.
    rewrite windows_app. auto.
  - assert (i < latestBlock) as Hlt0 by lia.
    destruct (Hbefore O) as (purchaseLogs & Hlogs & Hout); [lia|].
    replace (i + Z.of_nat 0 * 500000) with i in * by lia.
    cbn [scheduleFrom fmap list_fmap List.concat].
    rewrite (windowLogs_answer (i, i + 500000) purchaseLogs Hlogs).
    rewrite indexPastPurchases_loop_step by exact Hlt0. cbv zeta. rewrite Hlogs.
    pose proof (processPurchases_spec purchaseLogs t) as Ht.
    rewrite processPurchases_spec. rewrite Hout in *.
    rewrite (processPurchases_app _ _ _ _ Ht).
    match goal with
    | |- context [indexPastPurchases_loop latestBlock (i + 500000) ?s1] =>
        match goal with
        | |- context [processPurchases (List.concat _) ?t1] =>
            destruct (IH (i + 500000) s1 t1) as (Hr & Hb & HL & Hc & Hw)
        end
    end.
    + simpl. congruence.
    + simpl. congruence.
    + lia.
    + intros j Hj. destruct (Hbefore (S j)) as (l & Hl & Hol); [lia|].
      exists l. split; [|exact Hol]. rewrite <- Hl. f_equal; lia.
    + rewrite <- Hreject. f_equal; lia.
    + split; [exact Hr|]. split; [exact Hb|]. split; [exact HL|].
      split; [exact Hc|]. rewrite Hw. simpl.
      rewrite !windows_app, windows_lookups, app_nil_r. simpl.
      rewrite <- app_assoc. reflexivity.
Qed.

(** X6. When the node answers the first [k] windows with logs that all
    process and rejects the request for the next one, the backfill throws
    that rejection. The table and the console are as a batch of the logs of
    those [k] windows leaves them, and no window after the rejected one is
    asked for. *)
Theorem rejected_window_stops_backfill
    (latestBlock : Z) (k : nat) (e : Error) (s : State) :
  Z.of_nat k * 500000 < latestBlock ->
  (forall j : nat, (j < k)%nat ->
     exists purchaseLogs,
       getPastLogs web3 PURCHASE_FILTER (Z.of_nat j * 500000)
         (Z.of_nat j * 500000 + 500000) = Ok purchaseLogs /\
       outcome purchaseLogs = Ok tt) ->
  getPastLogs web3 PURCHASE_FILTER (Z.of_nat k * 500000)
    (Z.of_nat k * 500000 + 500000) = Throw e ->
  let r := indexPastPurchases latestBlock s in
  let b := processPurchases (List.concat (windowLogs <$> scheduleFrom k 0)) s in
  r.1 = Throw e /\
  ledger r.2 = ledger b.2 /\ console r.2 = console b.2 /\
  windows (requests r.2) = windows (requests s) ++ scheduleFrom (S k) 0.
Proof.
  intros Hlt Hbefore Hreject r b.
  destruct (loop_rejected latestBlock e k 0 s s) as (Hr & _ & HL & Hc & Hw);
    try reflexivity; try assumption.
  repeat split; assumption.
Qed.

(** ** Starting up *)

(** X7. If the block number cannot be read, [start] throws that error after
    that one request: nothing is written, subscribed or indexed. Otherwise
    [start] writes the connection line first, subscribes before it asks for
    any window, and then runs the backfill up to the block number it read,
    whose outcome is the outcome of [start]. *)
Theorem start_effects (s : State) :
  match getBlockNumber web3 with
  | Throw e =>
      start s =
      (Throw e,
       {| STOREFRONT_PURCHASES := ledger s; console := console s;
          requests := requests s ++ [ReqGetBlockNumber] |})
  | Ok currentBlockNumber =>
      let b := indexPastPurchases currentBlockNumber initial in
      (start s).1 = b.1 /\
      ledger (start s).2 = ledger b.2 ∪ ledger s /\
      console (start s).2 =
        console s ++
        ("Connected to web3 🚀 Current block is " +:+ pretty currentBlockNumber)
          :: console b.2 /\
      requests (start s).2 =
        requests s ++
        ReqGetBlockNumber :: ReqSubscribe "logs" PURCHASE_FILTER :: requests b.2
  end.
Proof.
  unfold start, eth_getBlockNumber, eth_subscribe, mbind, M_bind, request, lift,
    console_log. simpl.
  destruct (getBlockNumber web3) as [currentBlockNumber|e]; simpl; [|reflexivity].
  unfold indexPastPurchases.
  destruct (blind_loop currentBlockNumber 0) as (r & stored & lines & asked & Hloop).
  rewrite !Hloop. simpl. rewrite stored_union, <- !app_assoc. simpl. auto.
Qed.

End Server.

(** ** The inputs taken from the ABI *)

(** X9. The decoder is given the inputs of the first entry of the ABI that
    is named [ItemPurchased] (in the page, [ItemUpdated]), whatever entries
    come before or after it, and no inputs at all when the ABI has no entry
    of that name. *)
Theorem abi_inputs_of_first_entry (pre post : list AbiItem) (entry : AbiItem) :
  (name entry = "ItemPurchased" ->
   (forall other, other ∈ pre -> name other <> "ItemPurchased") ->
   ITEM_PURCHASED_ABI_INPUT (pre ++ entry :: post) = inputs entry) /\
  ((forall other, other ∈ pre -> name other <> "ItemPurchased") ->
   ITEM_PURCHASED_ABI_INPUT pre = []) /\
  (name entry = "ItemUpdated" ->
   (forall other, other ∈ pre -> name other <> "ItemUpdated") ->
   ITEM_UPDATED_ABI_INPUT (pre ++ entry :: post) = inputs entry) /\
  ((forall other, other ∈ pre -> name other <> "ItemUpdated") ->
   ITEM_UPDATED_ABI_INPUT pre = []).
Proof.
  assert (Hfind : forall (event : string) (l : list AbiItem),
    (forall other, other ∈ l -> name other <> event) ->
    forall tail, List.find (fun item => String.eqb (name item) event) (l ++ tail)
      = List.find (fun item => String.eqb (name item) event) tail).
  { intros event l. induction l as [|x l IH]; intros Hl tail; [reflexivity|].
    simpl. destruct (String.eqb_spec (name x) event) as [Heq|_].
    - exfalso. apply (Hl x); [left|exact Heq].
    - apply IH. intros other Hother. apply Hl. right. exact Hother. }
  repeat split.
  - intros Hname Hpre. unfold ITEM_PURCHASED_ABI_INPUT.
    rewrite (Hfind _ _ Hpre). simpl. rewrite Hname. reflexivity.
  - intros Hpre. unfold ITEM_PURCHASED_ABI_INPUT.
    rewrite <- (app_nil_r pre), (Hfind _ _ Hpre). reflexivity.
  - intros Hname Hpre. unfold ITEM_UPDATED_ABI_INPUT.
    rewrite (Hfind _ _ Hpre). simpl. rewrite Hname. reflexivity.
  - intros Hpre. unfold ITEM_UPDATED_ABI_INPUT.
    rewrite <- (app_nil_r pre), (Hfind _ _ Hpre). reflexivity.
Qed.

(** ** The top of the script *)

(** X8. The top of the script throws the configuration error, without
    building the client or the contract, when [STOREFRONT_ADDRESS] or
    [WEB3_URI] is missing or empty, and a missing [STOREFRONT_ADDRESS] is
    the one reported whatever [WEB3_URI] is. The check passes exactly when
    both are present and not empty; then the client is built for
    [WEB3_URI] and the contract for the ABI and [STOREFRONT_ADDRESS], and
    what a constructor throws is thrown. *)
Theorem startup_requires_configuration
    (Contract : Type) (newWeb3 : string -> result Web3)
    (newContract : Web3 -> list AbiItem -> string -> result Contract)
    (storefrontAbi : list AbiItem) (env : gmap string string) :
  (checkEnvironment env = Ok tt <->
   (exists a, env !! "STOREFRONT_ADDRESS" = Some a /\ a <> EmptyString) /\
   (exists u, env !! "WEB3_URI" = Some u /\ u <> EmptyString)) /\
  (forall e, checkEnvironment env = Throw e ->
     setup Contract newWeb3 newContract storefrontAbi env = Throw e) /\
  (configured env "STOREFRONT_ADDRESS" = false ->
   setup Contract newWeb3 newContract storefrontAbi env = Throw (Failure
     "No STOREFRONT_ADDRESS configured. Please setup a .env file with that variable")) /\
  (forall a u,
     env !! "STOREFRONT_ADDRESS" = Some a -> a <> EmptyString ->
     env !! "WEB3_URI" = Some u -> u <> EmptyString ->
     setup Contract newWeb3 newContract storefrontAbi env =
     match newWeb3 u with
     | Throw e => Throw e
     | Ok web3 =>
         match newContract web3 storefrontAbi a with
         | Throw e => Throw e
         | Ok storefront => Ok (web3, storefront)
         end
     end).
Proof.
  assert (Hconf : forall v, configured env v = true <->
    exists a, env !! v = Some a /\ a <> EmptyString).
  { intros v. unfold configured. destruct (env !! v) as [a|].
    - destruct (String.eqb_spec a EmptyString) as [->|Hne]; simpl.
      + split; [discriminate|]. intros (a & Ha & Hne). congruence.
      + split; [eauto|reflexivity].
    - split; [discriminate|]. intros (a & Ha & _). discriminate. }
  assert (Hcheck : checkEnvironment env = Ok tt <->
    configured env "STOREFRONT_ADDRESS" = true /\ configured env "WEB3_URI" = true).
  { unfold checkEnvironment.
    destruct (configured env "STOREFRONT_ADDRESS"), (configured env "WEB3_URI"); simpl;
      split; intros H; try discriminate H; try (destruct H; discriminate); auto. }
  split; [|split; [|split]].
  - rewrite Hcheck, !Hconf. reflexivity.
  - intros e Hthrow. unfold setup, mbind, result_bind. rewrite Hthrow. reflexivity.
  - intros Hmissing. unfold setup, mbind, result_bind, checkEnvironment.
    rewrite Hmissing. reflexivity.
  - intros a u Ha Hne Hu Hnu.
    assert (Hok : checkEnvironment env = Ok tt).
    { apply Hcheck. rewrite !Hconf. split; [exists a|exists u]; split; assumption. }
    unfold setup, mbind, result_bind. rewrite Hok, Ha, Hu. simpl.
    destruct (newWeb3 u) as [web3|e]; [|reflexivity].
    destruct (newContract web3 storefrontAbi a); reflexivity.
Qed.

(** ** The contract factory *)

(** X10. [getStorefrontContract] builds the contract at the configured
    address and nowhere else: with [STOREFRONT_ADDRESS] missing or empty it
    throws the configuration error without calling the constructor, and it
    accepts every configuration the server script accepts. *)
Theorem contract_needs_address
    (Contract : Type) (newContract : list AbiItem -> string -> result Contract)
    (env : gmap string string) (storefrontAbi : list AbiItem) :
  (configured env "STOREFRONT_ADDRESS" = false ->
   getStorefrontContract Contract newContract env storefrontAbi =
   Throw (Failure
     "No STOREFRONT_ADDRESS configured. Please setup a .env file with that variable")) /\
  (forall a, env !! "STOREFRONT_ADDRESS" = Some a -> a <> EmptyString ->
   getStorefrontContract Contract newContract env storefrontAbi
   = newContract storefrontAbi a) /\
  (checkEnvironment env = Ok tt ->
   exists a, env !! "STOREFRONT_ADDRESS" = Some a /\
     getStorefrontContract Contract newContract env storefrontAbi
     = newContract storefrontAbi a).
Proof.
  unfold getStorefrontContract, checkEnvironment, configured.
  destruct (env !! "STOREFRONT_ADDRESS") as [a|]; simpl.
  - destruct (String.eqb_spec a EmptyString) as [->|Hne]; simpl.
    + split; [reflexivity|]. split; [|discriminate].
      intros a' Ha' Hne'. congruence.
    + split; [discriminate|]. split.
      * intros a' Ha' _. congruence.
      * intros _. exists a. split; reflexivity.
  - split; [reflexivity|]. split; [discriminate|discriminate].
Qed.

(** ** The browser page *)

Section BrowserProperties.

Context (dapp : Dapp) (storefrontAbi : list AbiItem) (storefront_address : string).

Lemma getItems_loop_cons (log : Log) (rest : list Log) (items : list StoreItem) :
  getItems_loop dapp storefrontAbi (log :: rest) items =
  match itemOf dapp storefrontAbi log with
  | Ok item => getItems_loop dapp storefrontAbi rest (items ++ [item])
  | Throw e => Throw e
  end.
Proof.
  simpl. unfold itemOf, mbind, result_bind.
  destruct (decodeItem dapp _ _ _) as [name|e]; [|reflexivity].
  destruct (prices dapp name) as [price|e]; [|reflexivity].
  destruct (stock dapp name) as [stockText|e]; reflexivity.
Qed.

Lemma getItems_loop_ok (updateItemLogs : list Log) (items out : list StoreItem) :
  getItems_loop dapp storefrontAbi updateItemLogs items = Ok out <->
  exists new, out = items ++ new /\
    Forall2 (fun log item => itemOf dapp storefrontAbi log = Ok item) updateItemLogs new.
Proof.
  revert items. induction updateItemLogs as [|log rest IH]; intros items.
  - simpl. split.
    + intros H. inversion H. exists []. rewrite app_nil_r. split; [reflexivity|constructor].
    + intros (new & -> & Hnew). inversion Hnew. rewrite app_nil_r. reflexivity.
  - rewrite getItems_loop_cons.
    destruct (itemOf dapp storefrontAbi log) as [item|e] eqn:Hitem.
    + rewrite IH. split.
      * intros (new & -> & Hnew). exists (item :: new). rewrite <- app_assoc.
        split; [reflexivity|]. constructor; [exact Hitem|exact Hnew].
      * intros (new & -> & Hnew).
        inversion Hnew as [|? item' ? new' Hitem' Hrest]; subst.
        rewrite Hitem in Hitem'. inversion Hitem'; subst.
        exists new'. rewrite <- app_assoc. split; [reflexivity|exact Hrest].
    + split; [discriminate|]. intros (new & _ & Hnew).
      inversion Hnew as [|? item' ? new' Hitem' Hrest]; subst.
      rewrite Hitem in Hitem'. discriminate.
Qed.

Lemma getItems_loop_throw (pre post : list Log) (log : Log) (e : Error)
    (items : list StoreItem) :
  Forall (fun l => exists item, itemOf dapp storefrontAbi l = Ok item) pre ->
  itemOf dapp storefrontAbi log = Throw e ->
  getItems_loop dapp storefrontAbi (pre ++ log :: post) items = Throw e.
Proof.
  intros Hpre Hlog. revert items.
  induction Hpre as [|l pre (item & Hitem) _ IH]; intros items.
  - simpl app. rewrite getItems_loop_cons, Hlog. reflexivity.
  - rewrite <- app_comm_cons, getItems_loop_cons, Hitem. apply IH.
Qed.

(** X11. When the node returns the [ItemUpdated] logs, [getItems] resolves
    to a list exactly when every log gives an item, and the list then has
    one item per log, in the order of the logs: the name is the one
    decoded from the log, the price and the stock are what the contract
    answers for that name now, read with [parseInt]. *)
Theorem getItems_one_per_log (updateItemLogs : list Log) (items : list StoreItem) :
  pastLogsSince dapp
    {| filter_address := storefront_address;
       filter_topics := [dapp_sha3 dapp "ItemUpdated(string,uint256,uint256)"] |} 0
    = Ok updateItemLogs ->
  (getItems dapp storefrontAbi storefront_address = Ok items <->
   Forall2 (fun log item =>
     exists price stockText,
       decodeItem dapp (ITEM_UPDATED_ABI_INPUT storefrontAbi) (Log.data log) (Log.topics log)
         = Ok (StoreItem.name item) /\
       prices dapp (StoreItem.name item) = Ok price /\
       stock dapp (StoreItem.name item) = Ok stockText /\
       StoreItem.price item = parseInt price /\
       StoreItem.stock item = parseInt stockText) updateItemLogs items) /\
  (getItems dapp storefrontAbi storefront_address = Ok items ->
   List.length items = List.length updateItemLogs).
Proof.
  intros Hlogs.
  assert (Hitem : forall log item,
    itemOf dapp storefrontAbi log = Ok item <->
    exists price stockText,
      decodeItem dapp (ITEM_UPDATED_ABI_INPUT storefrontAbi) (Log.data log) (Log.topics log)
        = Ok (StoreItem.name item) /\
      prices dapp (StoreItem.name item) = Ok price /\
      stock dapp (StoreItem.name item) = Ok stockText /\
      StoreItem.price item = parseInt price /\
      StoreItem.stock item = parseInt stockText).
  { intros log item. unfold itemOf, mbind, result_bind, mret, result_ret. split.
    - destruct (decodeItem dapp _ _ _) as [name|e]; [|discriminate].
      destruct (prices dapp name) as [price|e] eqn:Hp; [|discriminate].
      destruct (stock dapp name) as [stockText|e] eqn:Hs; [|discriminate].
      intros H. inversion H; subst; simpl. exists price, stockText. auto.
    - intros (price & stockText & -> & -> & -> & Hp & Hs).
      destruct item as [n p st]. simpl in *. subst. reflexivity. }
  assert (Hall : getItems dapp storefrontAbi storefront_address = Ok items <->
    Forall2 (fun log item => itemOf dapp storefrontAbi log = Ok item) updateItemLogs items).
  { unfold getItems, mbind, result_bind. rewrite Hlogs. rewrite getItems_loop_ok.
    split; [intros (new & -> & Hnew); exact Hnew|]. intros Hnew. exists items. auto. }
  split.
  - rewrite Hall. split; intros H; (eapply Forall2_impl; [exact H|]);
      intros log item; apply Hitem.
  - intros Hok. apply Hall in Hok. symmetry. eapply Forall2_length, Hok.
Qed.

(** X12. [getItems] gives all the items or none: when one log cannot be
    decoded, or a read of the contract for it is rejected, [getItems]
    rejects with that error although the logs before it gave items, and the
    page keeps the items it had. *)
Theorem getItems_all_or_nothing
    (pre post : list Log) (log : Log) (e : Error) (st : StorefrontState) :
  pastLogsSince dapp
    {| filter_address := storefront_address;
       filter_topics := [dapp_sha3 dapp "ItemUpdated(string,uint256,uint256)"] |} 0
    = Ok (pre ++ log :: post) ->
  Forall (fun l => exists item, itemOf dapp storefrontAbi l = Ok item) pre ->
  itemOf dapp storefrontAbi log = Throw e ->
  getItems dapp storefrontAbi storefront_address = Throw e /\
  loadItems dapp storefrontAbi storefront_address st = st.
Proof.
  intros Hlogs Hpre Hlog.
  assert (Hget : getItems dapp storefrontAbi storefront_address = Throw e).
  { unfold getItems, mbind, result_bind. rewrite Hlogs.
    apply getItems_loop_throw; assumption. }
  split; [exact Hget|]. unfold loadItems. rewrite Hget. reflexivity.
Qed.

Lemma leZero_toDouble_positive (z : Z) : 0 < z -> leZero (toDouble z) = false.
Proof.
  intros Hz. unfold toDouble.
  destruct (Z.ltb_spec (Z.abs z) (2 ^ 53)) as [_|Hbig].
  { simpl. apply Z.leb_gt, Hz. }
  rewrite Z.abs_eq in * by lia.
  set (e := Z.log2 z - 52).
  assert (0 <= e) as He.
  { subst e. assert (53 <= Z.log2 z); [|lia].
    change 53 with (Z.log2 (2 ^ 53)). apply Z.log2_le_mono, Hbig. }
  assert (0 < Z.shiftr z e) as Hq.
  { rewrite Z.shiftr_div_pow2 by exact He. apply Z.div_str_pos. split; [lia|].
    transitivity (2 ^ Z.log2 z); [apply Z.pow_le_mono_r; subst e; lia|].
    apply Z.log2_spec, Hz. }
  set (q := Z.shiftr z e) in *.
  set (q' := if Z.land z (Z.ones e) <? 2 ^ (e - 1) then q
             else if 2 ^ (e - 1) <? Z.land z (Z.ones e) then q + 1
             else if Z.even q then q else q + 1).
  assert (0 < q') as Hq'.
  { subst q'. repeat match goal with |- context [if ?b then _ else _] => destruct b end; lia. }
  destruct (2 ^ 1024 <=? Z.shiftl q' e).
  - replace (z <? 0) with false by (symmetry; apply Z.ltb_ge; lia). reflexivity.
  - simpl. apply Z.leb_gt. rewrite Z.shiftl_mul_pow2 by exact He.
    rewrite Z.sgn_pos by exact Hz. assert (0 < 2 ^ e) by (apply Z.pow_pos_nonneg; lia).
    nia.
Qed.

(** X14. A row offers [Buy Now] exactly when the stock it shows is not at
    most zero. For an item whose stock the contract gives in decimal
    notation the row says [Out of stock] exactly when that stock is zero,
    and an item whose stock text is not a number is offered for sale. *)
Theorem buy_offered_iff_in_stock
    (log : Log) (storeItem : StoreItem) (stockText : string) (i : nat) :
  itemOf dapp storefrontAbi log = Ok storeItem ->
  stock dapp (StoreItem.name storeItem) = Ok stockText ->
  (forall n : N, stockText = pretty n ->
     (action (renderRow i storeItem) = OutOfStock <-> n = 0%N)) /\
  (parseInt stockText = NaN -> action (renderRow i storeItem) = BuyNow).
Proof.
  intros Hitem Hstock.
  assert (Hparsed : StoreItem.stock storeItem = parseInt stockText).
  { unfold itemOf, mbind, result_bind, mret, result_ret in Hitem.
    destruct (decodeItem dapp _ _ _) as [name|e]; [|discriminate].
    destruct (prices dapp name) as [price|e]; [|discriminate].
    destruct (stock dapp name) as [stockText'|e] eqn:Hs; [|discriminate].
    inversion Hitem; subst; simpl in *. congruence. }
  unfold renderRow. simpl. rewrite Hparsed. split.
  - intros n ->. rewrite parseInt_pretty.
    destruct (decide (n = 0%N)) as [->|Hn].
    + simpl. split; reflexivity.
    + rewrite leZero_toDouble_positive by lia. split; [discriminate|contradiction].
  - intros ->. reflexivity.
Qed.

(** X15. Once a purchase has started the table is not shown again: the
    flag stays set whatever happens next, so the component shows the
    [Purchase in progress] text or a note. After a purchase has run to
    its end it shows a note, which says whether the last purchase was
    confirmed, with its transaction, or failed, with the error. *)
Theorem table_gone_after_purchase
    (storeItem : StoreItem) (st : StorefrontState) (events : list StorefrontEvent) :
  let step := Storefront_step dapp storefrontAbi storefront_address in
  (forall rows, Storefront (foldl step (setIsPurchasing true st) events) <> ViewTable rows) /\
  (exists note,
     Storefront (foldl step (purchase dapp storeItem st) events) = ViewNote note) /\
  Storefront (purchase dapp storeItem st) =
    ViewNote
      match getAccounts dapp with
      | Ok accounts =>
          match purchase_send dapp (StoreItem.name storeItem) 1 (head accounts)
                  (StoreItem.price storeItem) with
          | Ok transactionHash => NoteSuccess transactionHash
          | Throw e => NoteFailed e
          end
      | Throw e => NoteFailed e
      end.
Proof.
  intros step.
  assert (Hflag : forall ev st', isPurchasing st' = true ->
    isPurchasing (step st' ev) = true).
  { intros [| |item] st' Hst'; simpl; [|reflexivity|].
    - unfold loadItems. destruct (getItems _ _ _); simpl; exact Hst'.
    - unfold purchase. destruct (_ ≫= _); reflexivity. }
  assert (Hnote : forall ev st', is_Some (purchaseNote st') ->
    is_Some (purchaseNote (step st' ev))).
  { intros [| |item] st' Hst'; simpl; [|exact Hst'|].
    - unfold loadItems. destruct (getItems _ _ _); simpl; exact Hst'.
    - unfold purchase. destruct (_ ≫= _); simpl; eexists; reflexivity. }
  assert (Hkeep : forall evs st', isPurchasing st' = true ->
    isPurchasing (foldl step st' evs) = true /\
    (is_Some (purchaseNote st') -> is_Some (purchaseNote (foldl step st' evs)))).
  { intros evs. induction evs as [|ev evs IH]; intros st' Hst'; simpl; [auto|].
    destruct (IH (step st' ev) (Hflag ev st' Hst')) as [H1 H2].
    split; [exact H1|]. intros Hsome. apply H2, Hnote, Hsome. }
  split; [|split].
  - intros rows. destruct (Hkeep events (setIsPurchasing true st) eq_refl) as [H _].
    unfold Storefront. rewrite H. destruct (purchaseNote _); discriminate.
  - assert (isPurchasing (purchase dapp storeItem st) = true /\
            is_Some (purchaseNote (purchase dapp storeItem st))) as [H1 H2].
    { unfold purchase. destruct (_ ≫= _); simpl; split; eauto. }
    destruct (Hkeep events _ H1) as [Hf Hn]. destruct (Hn H2) as [note Hnote'].
    exists note. unfold Storefront. rewrite Hf, Hnote'. reflexivity.
  - unfold purchase, Storefront, mbind, result_bind.
    destruct (getAccounts dapp) as [accounts|e]; [|reflexivity].
    destruct (purchase_send dapp _ _ _ _); reflexivity.
Qed.

End BrowserProperties.

(** ** The properties on the sample nodes *)

Example sample_schedule :
  schedule 1200000 = [(0, 500000); (500000, 1000000); (1000000, 1500000)].
Proof. reflexivity. Qed.

Example sample_console :
  console (start Sample.healthy Sample.abi Sample.storefront initial).2 =
  [ "Connected to web3 🚀 Current block is 1200000";
    "[0xa1] 2 of " +:+ quote +:+ "sneakers" +:+ quote +:+ " were purchased by 0xA for 300 wei";
    "[0xb2] 2 of " +:+ quote +:+ "sneakers" +:+ quote
      +:+ " were purchased by 0xB for 9007199254740993 wei" ].
Proof. vm_compute. reflexivity. Qed.

(** C1 fails as stated: for a latest block of 1,200,000 the third window
    asked for is (1000000, 1500000), which ends past the latest block. *)
Lemma backfill_window_past_latest :
  let r := indexPastPurchases Sample.healthy Sample.abi Sample.storefront 1200000 initial in
  r.1 = Ok tt /\
  windows (requests r.2) = [(0, 500000); (500000, 1000000); (1000000, 1500000)] /\
  windows (requests r.2) <> [(0, 500000); (500000, 1000000); (1000000, 1200000)] /\
  exists w, w ∈ windows (requests r.2) /\ 1200000 < w.2.
Proof.
  vm_compute. split; [reflexivity|]. split; [reflexivity|]. split; [discriminate|].
  exists (1000000, 1500000). split; [|reflexivity]. right. right. left.
Qed.

(** C3 fails as stated: the transaction of the first log of the first window
    is unknown; the log after it in the window and the log of the second
    window, both of which would process, are never processed, and the
    second window is never asked for. *)
Lemma lookup_failure_stops_the_loop :
  let r := indexPastPurchases Sample.node Sample.abi Sample.storefront 1200000 initial in
  getPastLogs Sample.node (PURCHASE_FILTER Sample.node Sample.storefront) 0 500000
    = Ok [Sample.logOf "0xdead" 7; Sample.logOf "0xa1" 8] /\
  getPastLogs Sample.node (PURCHASE_FILTER Sample.node Sample.storefront) 500000 1000000
    = Ok [Sample.logOf "0xb2" 500001] /\
  getTransaction Sample.node "0xdead" = Ok None /\
  resolve Sample.node Sample.abi (Sample.logOf "0xa1" 8) = Ok (Sample.purchased, Sample.txA) /\
  resolve Sample.node Sample.abi (Sample.logOf "0xb2" 500001)
    = Ok (Sample.purchased, Sample.txB) /\
  r.1 = Throw TypeError /\
  STOREFRONT_PURCHASES r.2 !! "0xa1" = None /\
  STOREFRONT_PURCHASES r.2 !! "0xb2" = None /\
  windows (requests r.2) = [(0, 500000)].
Proof. vm_compute. repeat split. Qed.

(** C4 fails as stated: after the subscription reports an error there is
    still only the subscription that [start] asked for. *)
Lemma no_resubscription :
  let filter := PURCHASE_FILTER Sample.healthy Sample.storefront in
  let s := (start Sample.healthy Sample.abi Sample.storefront initial).2 in
  let r := onLogs Sample.healthy Sample.abi (Some (Failure "connection lost"))
             (Sample.logOf "0xa1" 8) s in
  r.1 = Throw (Failure "connection lost") /\
  subscriptions (requests s) = [("logs", filter)] /\
  subscriptions (requests r.2) = [("logs", filter)] /\
  subscriptions (requests r.2) <> subscriptions (requests s) ++ [("logs", filter)].
Proof. vm_compute. repeat split. discriminate. Qed.

(** C7 fails as stated: the transaction [0xb2] carries 2^53 + 1 wei and the
    receipt stored for it has a total of 2^53. *)
Lemma total_differs_from_value :
  let r := processPurchases Sample.node Sample.abi [Sample.logOf "0xb2" 500001] initial in
  getTransaction Sample.node "0xb2" = Ok (Some Sample.txB) /\
  Transaction.value Sample.txB = pretty (2 ^ 53 + 1)%N /\
  r.1 = Ok tt /\
  total <$> STOREFRONT_PURCHASES r.2 !! "0xb2" = Some (Int (2 ^ 53)) /\
  total <$> STOREFRONT_PURCHASES r.2 !! "0xb2" <> Some (Int (2 ^ 53 + 1)).
Proof. vm_compute. repeat split. discriminate. Qed.

(** C5 fails as stated: a log whose first topic is not the one of
    [ItemPurchased] and whose data reads as a purchase is decoded without
    error and its receipt is stored. *)
Lemma foreign_topic_is_stored :
  let log := Sample.foreign "0xa1" 8 in
  let r := processPurchases Sample.library Sample.abi [log] initial in
  Log.topics log = ["0xItemUpdated"] /\
  filter_topics (PURCHASE_FILTER Sample.library Sample.storefront) = [Some "0xtopic"] /\
  r.1 = Ok tt /\
  STOREFRONT_PURCHASES r.2 !! "0xa1"
  = Some {| from := "0xA"; item := "sneakers"; quantity := Int 2; total := Int 300;
            transactionId := "0xa1" |}.
Proof. vm_compute. repeat split. Qed.

Lemma decode_failure_propagated_witness :
  let s1 := (processPurchases Sample.library Sample.abi [Sample.logOf "0xa1" 8] initial).2 in
  decodeLog Sample.library (ITEM_PURCHASED_ABI_INPUT Sample.abi)
    (Log.data (Sample.garbled "0xb2" 9)) (Log.topics (Sample.garbled "0xb2" 9))
    = Throw (Failure "cannot decode") /\
  processPurchases Sample.library Sample.abi [Sample.logOf "0xa1" 8] initial = (Ok tt, s1) /\
  processPurchases Sample.library Sample.abi
    ([Sample.logOf "0xa1" 8] ++ Sample.garbled "0xb2" 9 :: [Sample.logOf "0xb2" 10]) initial
    = (Throw (Failure "cannot decode"), s1) /\
  STOREFRONT_PURCHASES s1 !! "0xb2" = None.
Proof.
  intros s1.
  assert (H1 : decodeLog Sample.library (ITEM_PURCHASED_ABI_INPUT Sample.abi)
    (Log.data (Sample.garbled "0xb2" 9)) (Log.topics (Sample.garbled "0xb2" 9))
    = Throw (Failure "cannot decode")) by reflexivity.
  assert (H2 : processPurchases Sample.library Sample.abi [Sample.logOf "0xa1" 8] initial
    = (Ok tt, s1)) by (vm_compute; reflexivity).
  split; [exact H1|]. split; [exact H2|].
  split; [|vm_compute; reflexivity].
  exact (proj1 (proj2 (decode_failure_propagated Sample.library Sample.abi
    [Sample.logOf "0xa1" 8] [Sample.logOf "0xb2" 10] (Sample.garbled "0xb2" 9)
    (Failure "cannot decode") initial s1 H1 H2))).
Defined.

Lemma lookup_failure_aborts_witness :
  decodeLog Sample.node (ITEM_PURCHASED_ABI_INPUT Sample.abi)
    (Log.data (Sample.logOf "0xdead" 7)) (Log.topics (Sample.logOf "0xdead" 7))
    = Ok Sample.purchased /\
  lookupFails Sample.node (Sample.logOf "0xdead" 7) TypeError /\
  processPurchases Sample.node Sample.abi [] initial = (Ok tt, initial) /\
  processPurchases Sample.node Sample.abi
    ([] ++ Sample.logOf "0xdead" 7 :: [Sample.logOf "0xa1" 8]) initial
    = (Throw TypeError,
       {| STOREFRONT_PURCHASES := ∅; console := [];
          requests := [] ++ [ReqGetTransaction "0xdead"] |}).
Proof.
  assert (H1 : decodeLog Sample.node (ITEM_PURCHASED_ABI_INPUT Sample.abi)
    (Log.data (Sample.logOf "0xdead" 7)) (Log.topics (Sample.logOf "0xdead" 7))
    = Ok Sample.purchased) by reflexivity.
  assert (H2 : lookupFails Sample.node (Sample.logOf "0xdead" 7) TypeError)
    by (right; split; reflexivity).
  assert (H3 : processPurchases Sample.node Sample.abi [] initial = (Ok tt, initial))
    by reflexivity.
  split; [exact H1|]. split; [exact H2|]. split; [exact H3|].
  exact (proj1 (lookup_failure_aborts Sample.node Sample.abi Sample.storefront
    [] [Sample.logOf "0xa1" 8] (Sample.logOf "0xdead" 7) Sample.purchased TypeError
    initial initial H1 H2 H3)).
Defined.

Lemma total_is_parsed_value_witness :
  resolve Sample.node Sample.abi (Sample.logOf "0xa1" 8) = Ok (Sample.purchased, Sample.txA) /\
  STOREFRONT_PURCHASES (processPurchase Sample.node Sample.abi (Sample.logOf "0xa1" 8) initial).2
    !! "0xa1"
  = Some {| from := "0xA"; item := "sneakers"; quantity := Int 2; total := Int 300;
            transactionId := "0xa1" |}.
Proof.
  assert (H1 : resolve Sample.node Sample.abi (Sample.logOf "0xa1" 8)
    = Ok (Sample.purchased, Sample.txA)) by reflexivity.
  split; [exact H1|].
  exact (proj1 (total_is_parsed_value Sample.node Sample.abi (Sample.logOf "0xa1" 8)
    Sample.purchased Sample.txA initial H1)).
Defined.

Lemma ledger_invariant_kept_witness :
  let s1 := (run Sample.healthy Sample.abi Sample.storefront
               (OpProcessPurchases [Sample.logOf "0xa1" 8]) initial).2 in
  let s2 := (run Sample.healthy Sample.abi Sample.storefront OpStart s1).2 in
  is_Some (STOREFRONT_PURCHASES s1 !! "0xa1") /\
  ledgerInvariant Sample.healthy Sample.abi s1 /\
  is_Some (STOREFRONT_PURCHASES s2 !! "0xa1") /\
  is_Some (STOREFRONT_PURCHASES s2 !! "0xb2") /\
  ledgerInvariant Sample.healthy Sample.abi s2.
Proof.
  intros s1 s2.
  assert (H0 : ledgerInvariant Sample.healthy Sample.abi initial).
  { intros k r Hk. simpl in Hk. rewrite lookup_empty in Hk. discriminate Hk. }
  assert (H1 : ledgerInvariant Sample.healthy Sample.abi s1).
  { exact (proj2 (ledger_invariant_kept Sample.healthy Sample.abi Sample.storefront
      (OpProcessPurchases [Sample.logOf "0xa1" 8]) initial H0)). }
  split; [vm_compute; eexists; reflexivity|]. split; [exact H1|].
  split; [vm_compute; eexists; reflexivity|].
  split; [vm_compute; eexists; reflexivity|].
  exact (proj2 (ledger_invariant_kept Sample.healthy Sample.abi Sample.storefront
    OpStart s1 H1)).
Defined.

Lemma delivery_idempotent_witness :
  let a := Sample.logOf "0xa1" 8 in
  let b := Sample.logOf "0xb2" 500001 in
  let final :=
    STOREFRONT_PURCHASES (deliver Sample.node Sample.abi [[b; a]; [a]; [b; b]] initial) in
  NoDup (Log.transactionHash <$> [a; b]) /\
  Forall (genuine Sample.node Sample.abi) [a; b] /\
  (forall log, log ∈ List.concat [[b; a]; [a]; [b; b]] <-> log ∈ [a; b]) /\
  final = STOREFRONT_PURCHASES (processPurchases Sample.node Sample.abi [a; b] initial).2 /\
  size final = 2%nat.
Proof.
  intros a b final.
  assert (H1 : NoDup (Log.transactionHash <$> [a; b])).
  { apply NoDup_cons. split; [|apply NoDup_singleton].
    intros Hin. apply list_elem_of_singleton in Hin. discriminate Hin. }
  assert (H2 : Forall (genuine Sample.node Sample.abi) [a; b]).
  { repeat constructor.
    - exists Sample.purchased, Sample.txA. split; reflexivity.
    - exists Sample.purchased, Sample.txB. split; reflexivity. }
  assert (H3 : forall log, log ∈ List.concat [[b; a]; [a]; [b; b]] <-> log ∈ [a; b]).
  { intros log. simpl. rewrite !elem_of_cons, elem_of_nil. tauto. }
  split; [exact H1|]. split; [exact H2|]. split; [exact H3|].
  destruct (delivery_idempotent Sample.node Sample.abi [a; b] [[b; a]; [a]; [b; b]]
    initial H1 H2 H3) as (Hsame & _ & _ & Hsize).
  split; [exact Hsame|]. exact (proj2 (Hsize eq_refl)).
Defined.

(** ** The further properties on the samples *)

Example sample_items :
  getItems Sample.shop Sample.abi Sample.storefront =
  Ok [ {| StoreItem.name := "sneakers"; StoreItem.price := Int 150; StoreItem.stock := Int 5 |};
       {| StoreItem.name := "boots"; StoreItem.price := Int 80; StoreItem.stock := Int 0 |};
       {| StoreItem.name := "sneakers"; StoreItem.price := Int 150; StoreItem.stock := Int 5 |} ].
Proof. vm_compute. reflexivity. Qed.

Example sample_table :
  action <$> match Storefront (loadItems Sample.shop Sample.abi Sample.storefront
                                 Storefront_initial) with
             | ViewTable rows => rows
             | _ => []
             end
  = [BuyNow; OutOfStock; BuyNow].
Proof. vm_compute. reflexivity. Qed.

Lemma receipts_are_announced_witness :
  announced initial /\
  announced (run Sample.node Sample.abi Sample.storefront
               (OpProcessPurchases [Sample.logOf "0xa1" 8]) initial).2.
Proof.
  assert (H1 : announced initial).
  { intros k r Hk. simpl in Hk. rewrite lookup_empty in Hk. discriminate Hk. }
  split; [exact H1|].
  exact (proj2 (receipts_are_announced Sample.node Sample.abi Sample.storefront
    (OpProcessPurchases [Sample.logOf "0xa1" 8]) initial H1)).
Defined.

Lemma quantity_is_parsed_witness :
  resolve Sample.node Sample.abi (Sample.logOf "0xa1" 8) = Ok (Sample.purchased, Sample.txA) /\
  Decoded.quantity Sample.purchased = pretty 2%N /\
  exists r,
    STOREFRONT_PURCHASES
      (processPurchase Sample.node Sample.abi (Sample.logOf "0xa1" 8) initial).2 !! "0xa1"
    = Some r /\ quantity r = Int 2.
Proof.
  assert (H1 : resolve Sample.node Sample.abi (Sample.logOf "0xa1" 8)
    = Ok (Sample.purchased, Sample.txA)) by reflexivity.
  assert (H2 : Decoded.quantity Sample.purchased = pretty 2%N) by reflexivity.
  split; [exact H1|]. split; [exact H2|].
  destruct (quantity_is_parsed Sample.node Sample.abi (Sample.logOf "0xa1" 8)
    Sample.purchased Sample.txA 2%N initial H1 H2) as (r & Hr & _ & _ & Hq).
  exists r. split; [exact Hr|]. apply Hq. vm_compute. discriminate.
Defined.

Lemma backfill_is_one_batch_witness :
  (forall w, w ∈ schedule 1200000 ->
     exists purchaseLogs,
       getPastLogs Sample.node (PURCHASE_FILTER Sample.node Sample.storefront) w.1 w.2
       = Ok purchaseLogs) /\
  backfillLogs Sample.node Sample.storefront 1200000
    = [Sample.logOf "0xdead" 7; Sample.logOf "0xa1" 8; Sample.logOf "0xb2" 500001] /\
  (indexPastPurchases Sample.node Sample.abi Sample.storefront 1200000 initial).1
    = (processPurchases Sample.node Sample.abi
         (backfillLogs Sample.node Sample.storefront 1200000) initial).1.
Proof.
  assert (H1 : forall w, w ∈ schedule 1200000 ->
     exists purchaseLogs,
       getPastLogs Sample.node (PURCHASE_FILTER Sample.node Sample.storefront) w.1 w.2
       = Ok purchaseLogs).
  { intros [fromBlock toBlock] _. simpl.
    destruct (fromBlock =? 0); [eexists; reflexivity|].
    destruct (fromBlock =? 500000); eexists; reflexivity. }
  split; [exact H1|]. split; [reflexivity|].
  exact (proj1 (backfill_is_one_batch Sample.node Sample.abi Sample.storefront
    1200000 initial H1)).
Defined.

Lemma rejected_window_stops_backfill_witness :
  let r := indexPastPurchases Sample.flaky Sample.abi Sample.storefront 1200000 initial in
  1 * 500000 < 1200000 /\
  getPastLogs Sample.flaky (PURCHASE_FILTER Sample.flaky Sample.storefront)
    (Z.of_nat 1 * 500000) (Z.of_nat 1 * 500000 + 500000) = Throw (Failure "query timeout") /\
  r.1 = Throw (Failure "query timeout") /\
  windows (requests r.2) = [] ++ [(0, 500000); (500000, 1000000)].
Proof.
  intros r.
  assert (H1 : Z.of_nat 1 * 500000 < 1200000) by reflexivity.
  assert (H2 : forall j : nat, (j < 1)%nat ->
    exists purchaseLogs,
      getPastLogs Sample.flaky (PURCHASE_FILTER Sample.flaky Sample.storefront)
        (Z.of_nat j * 500000) (Z.of_nat j * 500000 + 500000) = Ok purchaseLogs /\
      outcome Sample.flaky Sample.abi purchaseLogs = Ok tt).
  { intros j Hj. assert (j = O) as -> by lia.
    exists [Sample.logOf "0xa1" 8]. split; reflexivity. }
  assert (H3 : getPastLogs Sample.flaky (PURCHASE_FILTER Sample.flaky Sample.storefront)
    (Z.of_nat 1 * 500000) (Z.of_nat 1 * 500000 + 500000) = Throw (Failure "query timeout"))
    by reflexivity.
  split; [exact H1|]. split; [exact H3|].
  destruct (rejected_window_stops_backfill Sample.flaky Sample.abi Sample.storefront
    1200000 1 (Failure "query timeout") initial H1 H2 H3) as (Hr & _ & _ & Hw).
  split; [exact Hr|exact Hw].
Defined.

Lemma getItems_one_per_log_witness :
  let filter :=
    {| filter_address := Sample.storefront;
       filter_topics := [dapp_sha3 Sample.shop "ItemUpdated(string,uint256,uint256)"] |} in
  pastLogsSince Sample.shop filter 0
    = Ok [Sample.updated "sneakers" 3; Sample.updated "boots" 4; Sample.updated "sneakers" 9] /\
  forall items,
    getItems Sample.shop Sample.abi Sample.storefront = Ok items ->
    List.length items = 3%nat.
Proof.
  intros filter.
  assert (H1 : pastLogsSince Sample.shop filter 0
    = Ok [Sample.updated "sneakers" 3; Sample.updated "boots" 4; Sample.updated "sneakers" 9])
    by reflexivity.
  split; [exact H1|]. intros items.
  exact (proj2 (getItems_one_per_log Sample.shop Sample.abi Sample.storefront _ items H1)).
Defined.

Lemma getItems_all_or_nothing_witness :
  let filter :=
    {| filter_address := Sample.storefront;
       filter_topics := [dapp_sha3 Sample.brokenShop "ItemUpdated(string,uint256,uint256)"] |} in
  pastLogsSince Sample.brokenShop filter 0
    = Ok ([Sample.updated "sneakers" 3] ++ Sample.updated "ghost" 4 :: [Sample.updated "boots" 5]) /\
  Forall (fun l => exists item, itemOf Sample.brokenShop Sample.abi l = Ok item)
    [Sample.updated "sneakers" 3] /\
  itemOf Sample.brokenShop Sample.abi (Sample.updated "ghost" 4)
    = Throw (Failure "execution reverted") /\
  getItems Sample.brokenShop Sample.abi Sample.storefront
    = Throw (Failure "execution reverted") /\
  loadItems Sample.brokenShop Sample.abi Sample.storefront Storefront_initial
    = Storefront_initial.
Proof.
  intros filter.
  assert (H1 : pastLogsSince Sample.brokenShop filter 0
    = Ok ([Sample.updated "sneakers" 3] ++ Sample.updated "ghost" 4
            :: [Sample.updated "boots" 5])) by reflexivity.
  assert (H2 : Forall (fun l => exists item,
    itemOf Sample.brokenShop Sample.abi l = Ok item) [Sample.updated "sneakers" 3]).
  { repeat constructor. eexists. vm_compute. reflexivity. }
  assert (H3 : itemOf Sample.brokenShop Sample.abi (Sample.updated "ghost" 4)
    = Throw (Failure "execution reverted")) by reflexivity.
  split; [exact H1|]. split; [exact H2|]. split; [exact H3|].
  exact (getItems_all_or_nothing Sample.brokenShop Sample.abi Sample.storefront
    [Sample.updated "sneakers" 3] [Sample.updated "boots" 5] (Sample.updated "ghost" 4)
    (Failure "execution reverted") Storefront_initial H1 H2 H3).
Defined.

Lemma buy_offered_iff_in_stock_witness :
  itemOf Sample.shop Sample.abi (Sample.updated "boots" 4)
    = Ok {| StoreItem.name := "boots"; StoreItem.price := Int 80; StoreItem.stock := Int 0 |} /\
  stock Sample.shop "boots" = Ok (pretty 0%N) /\
  action (renderRow 1
    {| StoreItem.name := "boots"; StoreItem.price := Int 80; StoreItem.stock := Int 0 |})
  = OutOfStock.
Proof.
  assert (H1 : itemOf Sample.shop Sample.abi (Sample.updated "boots" 4)
    = Ok {| StoreItem.name := "boots"; StoreItem.price := Int 80; StoreItem.stock := Int 0 |})
    by (vm_compute; reflexivity).
  assert (H2 : stock Sample.shop "boots" = Ok (pretty 0%N)) by reflexivity.
  split; [exact H1|]. split; [exact H2|].
  apply (proj1 (buy_offered_iff_in_stock Sample.shop Sample.abi
    (Sample.updated "boots" 4) _ (pretty 0%N) 1 H1 H2) 0%N eq_refl).
  reflexivity.
Defined.
